(** * POS_RNN notebook: the simple recurrent network, its framework wrapper,
      the accuracy counters and the unfinished placeholders

    A shallow embedding of the code cells of [POS_RNN-Copy1.ipynb].

    - Python values are a small tagged union ([pyval]); tensors of the
      [mySRN]/[fastSRN] cells stay abstract and the torch calls those cells
      make are the fields of the interface [TorchAPI].
    - A cell's function is a computation in the monad [M]: it reads and
      writes the interpreter state ([pystate]: module globals, object heap,
      torch's default random generator, the trace of observable events) and
      ends in a value, a raised exception, or, for the [while] loop, in
      [Timeout] when the supplied number of loop tests is used up.
    - The integer tensors of [accuracy] are concrete: a shape and the
      row-major list of elements.  A float is modelled by the exact rational
      it denotes; the float32 sum of [accuracy] is specified by the class
      [Float32Sum] (a float32 result, exact while the partial sums stay
      within 2^24). *)

From Stdlib Require Import ZArith QArith List Bool Lia.
From stdpp Require Import base strings gmap.
Import ListNotations.

Local Open Scope Z_scope.
Set Warnings "-register-all".

(* ------------------------------------------------------------------ *)
(** ** Python values, exceptions, results *)

Inductive exn : Type :=
| NameError (name : string)
| TypeError
| ValueError
| RuntimeError
| IndexError
| ZeroDivisionError.

(** Result of a call into library code: a value or a raised exception. *)
Inductive result (A : Type) : Type :=
| Ok (a : A)
| Err (e : exn).
Arguments Ok {A} a.
Arguments Err {A} e.

Definition and_then {A B} (r : result A) (k : A -> result B) : result B :=
  match r with
  | Ok a => k a
  | Err e => Err e
  end.

Definition loc := nat.

Inductive pyval (tensor : Type) : Type :=
| VNone
| VNotImplemented
| VInt (z : Z)
| VTensor (t : tensor)
| VList (l : list (pyval tensor))
| VTuple (l : list (pyval tensor))
| VRef (l : loc).
Arguments VNone {tensor}.
Arguments VNotImplemented {tensor}.
Arguments VInt {tensor} z.
Arguments VTensor {tensor} t.
Arguments VList {tensor} l.
Arguments VTuple {tensor} l.
Arguments VRef {tensor} l.

(** [torch.nn.Linear]: a weight and an optional bias. *)
Record Linear (tensor : Type) : Type := mkLinear {
  weight : tensor;
  bias : option tensor
}.
Arguments mkLinear {tensor} weight bias.
Arguments weight {tensor} l.
Arguments bias {tensor} l.

(** [torch.nn.RNN] with one layer: the parameters and the non-linearity. *)
Record RNN (tensor : Type) : Type := mkRNN {
  weight_ih_l0 : tensor;
  weight_hh_l0 : tensor;
  bias_ih_l0 : tensor;
  bias_hh_l0 : tensor;
  nonlinearity : string
}.
Arguments mkRNN {tensor} _ _ _ _ _.
Arguments weight_ih_l0 {tensor} r.
Arguments weight_hh_l0 {tensor} r.
Arguments bias_ih_l0 {tensor} r.
Arguments bias_hh_l0 {tensor} r.
Arguments nonlinearity {tensor} r.

(** The calls into torch made by the [mySRN] and [fastSRN] cells.  None of
    them is code of the notebook; each field is named after the torch
    function it stands for. *)
Class TorchAPI : Type := {
  tensor : Type;
  (** state of torch's default random generator *)
  generator : Type;
  (** [torch.nn.functional.linear(input, weight, bias)] *)
  F_linear : pyval tensor -> tensor -> option tensor -> result (pyval tensor);
  (** the [+] operator *)
  py_add : pyval tensor -> pyval tensor -> result (pyval tensor);
  (** parameter initialisation of [torch.nn.Linear(in_features, out_features, bias)] *)
  Linear_init : Z -> Z -> bool -> generator -> Linear tensor * generator;
  (** parameter initialisation of [torch.nn.RNN(input_size, hidden_size, nonlinearity)];
      an unknown non-linearity raises [ValueError] *)
  RNN_init : Z -> Z -> string -> generator -> result (RNN tensor * generator);
  torch_tanh : pyval tensor -> result (pyval tensor);
  torch_relu : pyval tensor -> result (pyval tensor);
  (** [input.unbind(0)]: the slices of a tensor along its first dimension *)
  unbind0 : pyval tensor -> result (list (pyval tensor));
  (** [torch.stack(tensors)] *)
  stack0 : list (pyval tensor) -> result (pyval tensor);
  (** the zero hidden state [torch.nn.RNN] starts from when none is given *)
  zeros_hidden : RNN tensor -> pyval tensor -> result (pyval tensor)
}.

Abbreviation value := (pyval tensor).

(** A Python callable from values to values that neither reads nor writes
    the interpreter state: the activations [mySRN] is built with in the
    notebook, and the nonlinearities of [torch.nn.RNN].  Callables that run
    in the interpreter state, and [torch.nn.Module] instances with
    parameters of their own, are [fastSRN.activation]. *)
Abbreviation callable := (value -> result value).

(* ------------------------------------------------------------------ *)
(** ** Interpreter state and the monad of cell code *)

(** Observable events: a line written by [print], and the entry of a call
    to a method of the notebook. *)
Inductive event `{TorchAPI} : Type :=
| Printed (v : value)
| Called (name : string).

Record pystate `{TorchAPI} : Type := mkState {
  globals : gmap string value;
  heap : gmap loc (gmap string value);
  rng : generator;
  trace : list event
}.
Arguments mkState {_} globals heap rng trace.

Inductive outcome (A : Type) : Type :=
| Ret (a : A)
| Raise (e : exn)
| Timeout.
Arguments Ret {A} a.
Arguments Raise {A} e.
Arguments Timeout {A}.

Definition M `{TorchAPI} (A : Type) : Type := pystate -> outcome A * pystate.

Section Monad.
Context `{TorchAPI}.

Definition ret {A} (a : A) : M A := fun s => (Ret a, s).

Definition bind {A B} (m : M A) (k : A -> M B) : M B :=
  fun s =>
    match m s with
    | (Ret a, s') => k a s'
    | (Raise e, s') => (Raise e, s')
    | (Timeout, s') => (Timeout, s')
    end.

Definition raise {A} (e : exn) : M A := fun s => (Raise e, s).

Definition timeout {A} : M A := fun s => (Timeout, s).

(** A library call that touches no interpreter state. *)
Definition lift {A} (r : result A) : M A :=
  match r with
  | Ok a => ret a
  | Err e => raise e
  end.

(** Reading a module-level name. *)
Definition load_global (name : string) : M value :=
  fun s =>
    match globals s !! name with
    | Some v => (Ret v, s)
    | None => (Raise (NameError name), s)
    end.

Definition emit (e : event) : M unit :=
  fun s => (Ret tt, mkState (globals s) (heap s) (rng s) (trace s ++ [e])).

(** [print(v)] *)
Definition print (v : value) : M unit := emit (Printed v).

(** A draw from torch's default generator. *)
Definition draw {A} (f : generator -> A * generator) : M A :=
  fun s =>
    let '(a, g) := f (rng s) in
    (Ret a, mkState (globals s) (heap s) g (trace s)).

Definition draw_result {A} (f : generator -> result (A * generator)) : M A :=
  fun s =>
    match f (rng s) with
    | Ok (a, g) => (Ret a, mkState (globals s) (heap s) g (trace s))
    | Err e => (Raise e, s)
    end.
End Monad.

Notation "x <- m ;; k" := (bind m (fun x => k))
  (at level 100, m at level 99, right associativity).
Notation "m ;;; k" := (bind m (fun _ => k))
  (at level 100, right associativity).

(** The text printed so far. *)
Definition stdout `{TorchAPI} (s : pystate) : list value :=
  flat_map (fun e => match e with Printed v => [v] | Called _ => [] end) (trace s).

(** How many times the method [name] has been entered so far. *)
Definition calls_of `{TorchAPI} (name : string) (s : pystate) : nat :=
  length (List.filter (fun e => match e with
                                | Called n => String.eqb n name
                                | Printed _ => false
                                end) (trace s)).

(** The state after the further events [es]. *)
Definition with_events `{TorchAPI} (s : pystate) (es : list event) : pystate :=
  mkState (globals s) (heap s) (rng s) (trace s ++ es).

(** The state after torch's generator has moved on to [g]. *)
Definition with_rng `{TorchAPI} (s : pystate) (g : generator) : pystate :=
  mkState (globals s) (heap s) g (trace s).

Definition outcome_of {A} (r : result A) : outcome A :=
  match r with
  | Ok a => Ret a
  | Err e => Raise e
  end.

(** Whether a run ended in a [return]. *)
Definition returns_normally {A} (o : outcome A) : bool :=
  match o with
  | Ret _ => true
  | _ => false
  end.

(** [layer(input)] for a [torch.nn.Linear] layer. *)
Definition Linear_call `{TorchAPI} (layer : Linear tensor) (input : value) : result value :=
  F_linear input (weight layer) (bias layer).

(* ------------------------------------------------------------------ *)
(** ** [class mySRN] *)

Module mySRN.
Section WithTorch.
Context `{TorchAPI}.

Record t : Type := mk {
  hidden_activation : callable;
  output_activation : callable;
  device : string;
  x_to_h : Linear tensor;
  h_to_h : Linear tensor;
  h_to_y : Linear tensor
}.

(** [__init__]: stores the activations and the device, and creates the
    three linear layers ([x_to_h] without a bias). *)
Definition __init__ (input_dim hidden_dim output_dim : Z)
    (hidden_activation output_activation : callable) (device : string) : M t :=
  x_to_h <- draw (Linear_init input_dim hidden_dim false) ;;
  h_to_h <- draw (Linear_init hidden_dim hidden_dim true) ;;
  h_to_y <- draw (Linear_init hidden_dim output_dim true) ;;
  ret (mk hidden_activation output_activation device x_to_h h_to_h h_to_y).

(** [step(self, x, h)].  The body applies [x_to_h] to the name [X], which
    is neither a parameter nor a local of [step]: it is looked up in the
    module globals.  The parameter [x] is not read. *)
Definition step (self : t) (x h : value) : M (value * value) :=
  emit (Called "step") ;;;
  X <- load_global "X" ;;
  a <- lift (Linear_call (x_to_h self) X) ;;
  b <- lift (Linear_call (h_to_h self) h) ;;
  s <- lift (py_add a b) ;;
  ht <- lift (hidden_activation self s) ;;
  c <- lift (Linear_call (h_to_y self) ht) ;;
  yt <- lift (output_activation self c) ;;
  ret (ht, yt).

(** The [while] loop of [forward]; [fuel] bounds the number of times the
    loop condition is tested.  [X] and [h] are never reassigned. *)
Fixpoint forward_loop (fuel : nat) (self : t) (X : list value) (h : value)
    (ht yt : value) : M value :=
  match fuel with
  | O => timeout
  | S fuel' =>
      if negb (Nat.eqb (length X) 0) then
        r <- step self (VList X) h ;;
        let '(ht', yt') := r in
        print ht' ;;;
        forward_loop fuel' self X h ht' yt'
      else ret yt
  end.

(** [forward(self, X, h)] *)
Definition forward (fuel : nat) (self : t) (X : list value) (h : value) : M value :=
  forward_loop fuel self X h (VList []) (VList []).

(** The step the assignment text describes:
    h_t = hidden_activation(x_to_h(x_t) + h_to_h(h_{t-1})),
    y_t = output_activation(h_to_y(h_t)). *)
Definition step_documented (self : t) (x h : value) : result (value * value) :=
  and_then (Linear_call (x_to_h self) x) (fun a =>
  and_then (Linear_call (h_to_h self) h) (fun b =>
  and_then (py_add a b) (fun s =>
  and_then (hidden_activation self s) (fun ht =>
  and_then (Linear_call (h_to_y self) ht) (fun c =>
  and_then (output_activation self c) (fun yt =>
  Ok (ht, yt))))))).

(** The forward pass the assignment text describes: [step] is applied to
    each input in turn, each application receiving the hidden state the
    previous one returned ([h] for the first), and the outputs are
    collected. *)
Fixpoint forward_documented (self : t) (X : list value) (h : value)
    : result (list value) :=
  match X with
  | [] => Ok []
  | x :: X' =>
      and_then (step_documented self x h) (fun r =>
      and_then (forward_documented self X' (fst r)) (fun Y =>
      Ok (snd r :: Y)))
  end.

(** The events of [n] rounds of the loop body when [step] returns [ht]. *)
Definition rounds (n : nat) (ht : value) : list event :=
  concat (repeat [Called "step"; Printed ht] n).
End WithTorch.
End mySRN.

(* ------------------------------------------------------------------ *)
(** ** [torch.nn.RNN], as its documentation describes the forward pass *)

Section RNNForward.
Context `{TorchAPI}.

(** The non-linearity named by the constructor argument. *)
Definition nonlinearity_fn (name : string) : callable :=
  if String.eqb name "tanh" then torch_tanh
  else if String.eqb name "relu" then torch_relu
  else fun _ => Err ValueError.

(** h_t = f(x_t W_ih^T + b_ih + h_{t-1} W_hh^T + b_hh) *)
Definition RNN_cell (rnn : RNN tensor) (x h : value) : result value :=
  and_then (F_linear x (weight_ih_l0 rnn) (Some (bias_ih_l0 rnn))) (fun a =>
  and_then (F_linear h (weight_hh_l0 rnn) (Some (bias_hh_l0 rnn))) (fun b =>
  and_then (py_add a b) (fun s =>
  nonlinearity_fn (nonlinearity rnn) s))).

Fixpoint RNN_scan (rnn : RNN tensor) (xs : list value) (h : value)
    : result (list value) :=
  match xs with
  | [] => Ok []
  | x :: xs' =>
      and_then (RNN_cell rnn x h) (fun h' =>
      and_then (RNN_scan rnn xs' h') (fun hs =>
      Ok (h' :: hs)))
  end.

(** [rnn(X)] without an initial hidden state: the stacked hidden states of
    all timesteps and the last hidden state. *)
Definition RNN_call (rnn : RNN tensor) (X : value) : result (value * value) :=
  and_then (unbind0 X) (fun xs =>
  and_then (zeros_hidden rnn X) (fun h0 =>
  and_then (RNN_scan rnn xs h0) (fun hs =>
  and_then (stack0 hs) (fun out =>
  Ok (out, List.last hs h0))))).
End RNNForward.

(* ------------------------------------------------------------------ *)
(** ** [class fastSRN] *)

Module fastSRN.
Section WithTorch.
Context `{TorchAPI}.

(** What a caller can pass as [output_activation]: a function, or any other
    callable that is not a [torch.nn.Module], which runs in the interpreter
    state and may read or change it (globals, torch's generator); or an
    instance of [torch.nn.Module], which in addition owns trainable
    parameters that its forward pass reads. *)
Inductive activation : Type :=
| PlainCallable (f : value -> M value)
| ModuleCallable (params : gmap string tensor)
                 (forward : gmap string tensor -> value -> M value).

(** [a(v)] *)
Definition call_activation (a : activation) (v : value) : M value :=
  match a with
  | PlainCallable f => f v
  | ModuleCallable params forward => forward params v
  end.

(** The instance attributes, and [_parameters], the table in which
    [torch.nn.Module] enters the [torch.nn.Parameter]s assigned to
    attributes of the instance ([super().__init__()] creates it empty).  An
    attribute that is assigned a [torch.nn.Module] is registered as a
    submodule: the field [output_activation] holds the callable either
    way. *)
Record t : Type := mk {
  input_size : Z;
  hidden_size : Z;
  output_size : Z;
  hidden_activation : string;
  output_activation : activation;
  device : string;
  _parameters : gmap string tensor
}.

Definition __init__ (input_dim hidden_dim output_dim : Z)
    (hidden_activation : string) (output_activation : activation)
    (device : string) : M t :=
  ret (mk input_dim hidden_dim output_dim hidden_activation output_activation
          device ∅).

(** [self.named_parameters()]: the entries of the instance's own table,
    then the parameters of its submodules under the attribute's name.  The
    only attribute that can hold a submodule is [output_activation]. *)
Definition named_parameters (self : t) : list (string * tensor) :=
  map_to_list (_parameters self)
  ++ match output_activation self with
     | PlainCallable _ => []
     | ModuleCallable params _ =>
         map (fun p => (String.append "output_activation." (fst p), snd p))
             (map_to_list params)
     end.

(** [forward(self, X, h=None)]: builds the recurrent layer and the output
    layer, then runs them; [h] is not read. *)
Definition forward (self : t) (X : value) (h : option value) : M value :=
  myrnn <- draw_result (RNN_init (input_size self) (hidden_size self)
                                 (hidden_activation self)) ;;
  h_to_y <- draw (Linear_init (hidden_size self) (output_size self) true) ;;
  r <- lift (RNN_call myrnn X) ;;
  let '(ht, _) := r in
  c <- lift (Linear_call h_to_y ht) ;;
  yt <- call_activation (output_activation self) c ;;
  ret yt.

(** An update of the registered parameters (an optimiser step,
    [load_state_dict]): the instance's own table becomes [own] and the
    parameters of a Module-valued [output_activation] become [sub]; nothing
    else changes. *)
Definition update_parameters (self : t) (own sub : gmap string tensor) : t :=
  mk (input_size self) (hidden_size self) (output_size self)
     (hidden_activation self)
     (match output_activation self with
      | PlainCallable f => PlainCallable f
      | ModuleCallable _ forward => ModuleCallable sub forward
      end)
     (device self) own.
End WithTorch.
End fastSRN.

(* ------------------------------------------------------------------ *)
(** ** The unfinished cells *)

Section Statements.
Context `{TorchAPI}.

(** How a function body ends: control runs off its end, or a [return]
    statement yields a value. *)
Inductive completion : Type :=
| Normal
| Returned (v : value).

(** An expression statement: the expression is evaluated and its value is
    dropped. *)
Definition expr_stmt (e : M value) : M completion := _ <- e ;; ret Normal.

(** A constant expression. *)
Definition const (v : value) : M value := ret v.

(** A call runs the body; a body that ends without [return] gives [None]. *)
Definition call (body : M completion) : M value :=
  c <- body ;;
  match c with
  | Normal => ret VNone
  | Returned v => ret v
  end.
End Statements.

Module UnevenLengthDataset.
Section WithTorch.
Context `{TorchAPI}.

(** [self] is a reference into the object heap. *)
Definition __init__ (self : loc) (X Y : value) : M value :=
  call (expr_stmt (const VNotImplemented)).

Definition __len__ (self : loc) : M value :=
  call (expr_stmt (const VNotImplemented)).

Definition __getitem__ (self : loc) (idx : value) : M value :=
  call (expr_stmt (const VNotImplemented)).
End WithTorch.
End UnevenLengthDataset.

Section Placeholders.
Context `{TorchAPI}.

Definition pad_batch (batch : value) : M value :=
  call (expr_stmt (const VNotImplemented)).

Definition train_batch (network X_batch Y_batch loss_fn optimizer : value) : M value :=
  call (expr_stmt (const VNotImplemented)).

Definition train_epoch (network dataloader loss_fn optimizer : value)
    (device : string) : M value :=
  call (expr_stmt (const VNotImplemented)).

Definition eval_batch (network X_batch Y_batch loss_fn : value) : M value :=
  call (expr_stmt (const VNotImplemented)).

Definition eval_epoch (network dataloader loss_fn : value) (device : string) : M value :=
  call (expr_stmt (const VNotImplemented)).
End Placeholders.

(* ------------------------------------------------------------------ *)
(** ** Float32 sums *)

(** A rational with a significand of at most 24 bits: the values a float32
    takes (its exponent range plays no role for the counts of this notebook
    and is left out). *)
Definition f32_representable (q : Q) : Prop :=
  exists m e : Z,
    Z.abs m <= 2 ^ 24
    /\ ((0 <= e /\ (q == inject_Z (m * 2 ^ e))%Q)
        \/ (e < 0 /\ (q * inject_Z (2 ^ (- e)) == inject_Z m)%Q)).

Definition sum_Z (l : list Z) : Z := fold_right Z.add 0 l.

(** [t.sum()] on a float32 tensor adds the entries in float32, in an order
    the implementation chooses.  Two facts hold of every implementation:
    the result is a float32, and while the entries are non-negative integers
    that add up to at most 2^24 every partial sum is a float32, so that the
    result is the exact sum. *)
Class Float32Sum : Type := {
  f32_sum : list Q -> Q;
  f32_sum_representable :
    forall zs : list Z,
      Forall (fun z => 0 <= z) zs ->
      f32_representable (f32_sum (map inject_Z zs));
  f32_sum_exact :
    forall zs : list Z,
      Forall (fun z => 0 <= z) zs -> sum_Z zs <= 2 ^ 24 ->
      (f32_sum (map inject_Z zs) == inject_Z (sum_Z zs))%Q
}.

(** One such summation, used to run the cells on concrete tensors: the
    entries are added from left to right, each partial sum rounded to
    float32.  Rounding is written out for the non-negative integers, which
    is all the tensors of [accuracy] hold. *)

(** A non-negative integer rounded to 24 significant bits, to nearest, ties
    to even. *)
Definition round_f32_Z (z : Z) : Z :=
  if z <? 2 ^ 24 then z
  else
    let k := Z.log2 z - 23 in
    let m := z / 2 ^ k in
    let r := z mod 2 ^ k in
    let half := 2 ^ (k - 1) in
    let m' := if r <? half then m
              else if half <? r then m + 1
              else if Z.even m then m else m + 1 in
    m' * 2 ^ k.

Definition f32_round (q : Q) : Q :=
  if Pos.eqb (Qden q) 1 && (0 <=? Qnum q)
  then inject_Z (round_f32_Z (Qnum q))
  else q.

Definition f32_sum_sequential (l : list Q) : Q :=
  fold_left (fun acc x => f32_round (acc + x)%Q) l 0%Q.



Lemma round_f32_Z_small (z : Z) : z <= 2 ^ 24 -> round_f32_Z z = z.
Proof.
  intros Hz. unfold round_f32_Z.
  destruct (Z.ltb_spec z (2 ^ 24)) as [|Hge]; [done|].
  assert (z = 2 ^ 24) as -> by lia. reflexivity.
Qed.

Lemma round_f32_Z_representable (z : Z) :
  0 <= z -> 0 <= round_f32_Z z /\ f32_representable (inject_Z (round_f32_Z z)).
Proof.
  intros Hz. unfold round_f32_Z.
  destruct (Z.ltb_spec z (2 ^ 24)) as [Hlt|Hge].
  - split; [done|]. exists z, 0. split; [lia|]. left. split; [done|].
    by rewrite Z.pow_0_r, Z.mul_1_r.
  - set (k := Z.log2 z - 23).
    assert (24 <= Z.log2 z) as Hlog by (apply Z.log2_le_pow2; lia).
    assert (1 <= k) as Hk by (unfold k; lia).
    assert (0 < 2 ^ k) as Hpos by (apply Z.pow_pos_nonneg; lia).
    assert (0 <= z / 2 ^ k < 2 ^ 24) as Hm.
    { split; [apply Z.div_pos; lia|].
      apply Z.div_lt_upper_bound; [done|].
      rewrite <- Z.pow_add_r by lia.
      replace (k + 24) with (Z.succ (Z.log2 z)) by (unfold k; lia).
      apply Z.log2_spec. lia. }
    cbv zeta.
    set (m' := if z mod 2 ^ k <? 2 ^ (k - 1) then z / 2 ^ k
               else if 2 ^ (k - 1) <? z mod 2 ^ k then z / 2 ^ k + 1
               else if Z.even (z / 2 ^ k) then z / 2 ^ k else z / 2 ^ k + 1).
    assert (0 <= m' <= 2 ^ 24) as Hm'.
    { unfold m'.
      destruct (_ <? _); [lia|]. destruct (_ <? _); [lia|].
      destruct (Z.even _); lia. }
    split; [nia|].
    exists m', k. split; [lia|]. left. by split; [lia|].
Qed.

Lemma f32_round_inject (a x : Z) :
  0 <= a -> 0 <= x ->
  f32_round (inject_Z a + inject_Z x) = inject_Z (round_f32_Z (a + x)).
Proof.
  intros Ha Hx. unfold f32_round, Qplus, inject_Z. cbn [Qnum Qden].
  rewrite !Z.mul_1_r. cbn [Pos.mul Pos.eqb andb].
  destruct (Z.leb_spec 0 (a + x)); [done|lia].
Qed.

Lemma f32_sum_sequential_from (zs : list Z) (a : Z) :
  0 <= a -> Forall (fun z => 0 <= z) zs ->
  exists b : Z,
    fold_left (fun acc x => f32_round (acc + x)%Q) (map inject_Z zs) (inject_Z a)
    = inject_Z b
    /\ 0 <= b
    /\ (f32_representable (inject_Z a) -> f32_representable (inject_Z b))
    /\ (a + sum_Z zs <= 2 ^ 24 -> b = a + sum_Z zs).
Proof.
  intros Ha Hzs. revert a Ha.
  induction Hzs as [|z zs Hz Hzs IH]; intros a Ha; cbn [map fold_left sum_Z fold_right].
  - exists a. repeat split; [done|done|lia].
  - rewrite f32_round_inject by done.
    destruct (round_f32_Z_representable (a + z)) as [Hr0 Hrep]; [lia|].
    destruct (IH (round_f32_Z (a + z)) Hr0) as (b & Hfold & Hb & Hbrep & Hbsum).
    exists b. split; [done|]. split; [done|]. split; [auto|].
    intros Hsum.
    assert (0 <= sum_Z zs) as Hs.
    { clear -Hzs. induction Hzs; cbn; [lia|]. unfold sum_Z in *. lia. }
    fold (sum_Z zs) in *.
    rewrite round_f32_Z_small in Hbsum by lia. lia.
Qed.

Lemma f32_sum_sequential_representable (zs : list Z) :
  Forall (fun z => 0 <= z) zs ->
  f32_representable (f32_sum_sequential (map inject_Z zs)).
Proof.
  intros Hzs. unfold f32_sum_sequential. change 0%Q with (inject_Z 0).
  destruct (f32_sum_sequential_from zs 0) as (b & -> & _ & Hrep & _); [lia|done|].
  apply Hrep. exists 0, 0. split; [lia|]. left. by split.
Qed.

Lemma f32_sum_sequential_exact (zs : list Z) :
  Forall (fun z => 0 <= z) zs -> sum_Z zs <= 2 ^ 24 ->
  (f32_sum_sequential (map inject_Z zs) == inject_Z (sum_Z zs))%Q.
Proof.
  intros Hzs Hsum. unfold f32_sum_sequential. change 0%Q with (inject_Z 0).
  destruct (f32_sum_sequential_from zs 0) as (b & -> & _ & _ & Hb); [lia|done|].
  by rewrite Hb by lia.
Qed.

#[global] Instance sequential_float32_sum : Float32Sum := {|
  f32_sum := f32_sum_sequential;
  f32_sum_representable := f32_sum_sequential_representable;
  f32_sum_exact := f32_sum_sequential_exact
|}.

(* ------------------------------------------------------------------ *)
(** ** Concrete tensors and Python numbers for the accuracy cells *)

(** A Python number: an [int], or a [float] (the rational it denotes). *)
Inductive pynum : Type :=
| PInt (z : Z)
| PFloat (q : Q).

Definition to_Q (n : pynum) : Q :=
  match n with
  | PInt z => inject_Z z
  | PFloat q => q
  end.

Definition num_add (a b : pynum) : pynum :=
  match a, b with
  | PInt x, PInt y => PInt (x + y)
  | _, _ => PFloat (to_Q a + to_Q b)
  end.

Definition num_sub (a b : pynum) : pynum :=
  match a, b with
  | PInt x, PInt y => PInt (x - y)
  | _, _ => PFloat (to_Q a - to_Q b)
  end.

Definition num_mul (a b : pynum) : pynum :=
  match a, b with
  | PInt x, PInt y => PInt (x * y)
  | _, _ => PFloat (to_Q a * to_Q b)
  end.

(** [a / b]: true division, a float; a zero divisor raises. *)
Definition num_truediv (a b : pynum) : result pynum :=
  if Qeq_bool (to_Q b) 0 then Err ZeroDivisionError
  else Ok (PFloat (to_Q a / to_Q b)).

(** A 2-dimensional tensor: its shape and its elements in row-major order. *)
Record tensor2 (A : Type) : Type := mkT2 {
  shape0 : nat;
  shape1 : nat;
  data : list A
}.
Arguments mkT2 {A} shape0 shape1 data.
Arguments shape0 {A} t.
Arguments shape1 {A} t.
Arguments data {A} t.

Definition wf2 {A} (t : tensor2 A) : Prop :=
  length (data t) = (shape0 t * shape1 t)%nat.

Definition same_shape {A B} (a : tensor2 A) (b : tensor2 B) : bool :=
  Nat.eqb (shape0 a) (shape0 b) && Nat.eqb (shape1 a) (shape1 b).

(** [torch.ones(size)]: a float32 tensor; its entries are given by the
    rationals they denote. *)
Definition ones (r c : nat) : tensor2 Q := mkT2 r c (repeat 1%Q (r * c)).

Fixpoint zip_with {A B C} (f : A -> B -> C) (l : list A) (m : list B) : list C :=
  match l, m with
  | a :: l', b :: m' => f a b :: zip_with f l' m'
  | _, _ => []
  end.

(** Broadcasting of two dimension sizes: equal, or one of them is 1. *)
Definition dim_compatible (m n : nat) : bool :=
  Nat.eqb m n || Nat.eqb m 1 || Nat.eqb n 1.

Definition broadcast_dim (m n : nat) : nat := if Nat.eqb m 1 then n else m.

(** Element (i, j) of a tensor seen through broadcasting. *)
Definition get2 {A} (d : A) (t : tensor2 A) (i j : nat) : A :=
  nth ((if Nat.eqb (shape0 t) 1 then 0 else i) * shape1 t
       + (if Nat.eqb (shape1 t) 1 then 0 else j))%nat (data t) d.

(** [a != b], elementwise.  Tensors of one shape are compared position by
    position; shapes that differ are broadcast when compatible and raise
    otherwise. *)
Definition t_ne (a b : tensor2 Z) : result (tensor2 bool) :=
  if same_shape a b then
    Ok (mkT2 (shape0 a) (shape1 a)
             (zip_with (fun x y => negb (Z.eqb x y)) (data a) (data b)))
  else if dim_compatible (shape0 a) (shape0 b) && dim_compatible (shape1 a) (shape1 b) then
    let r := broadcast_dim (shape0 a) (shape0 b) in
    let c := broadcast_dim (shape1 a) (shape1 b) in
    Ok (mkT2 r c
          (flat_map (fun i =>
             map (fun j => negb (Z.eqb (get2 0 a i j) (get2 0 b i j))) (seq 0 c))
             (seq 0 r)))
  else Err RuntimeError.

(** [t == v] for a scalar [v] *)
Definition t_eq_scalar (t : tensor2 Z) (v : Z) : tensor2 bool :=
  mkT2 (shape0 t) (shape1 t) (map (fun x => Z.eqb x v) (data t)).

(** [t[mask] = v]: the mask must have the shape of [t]. *)
Definition setitem_mask {A} (t : tensor2 A) (mask : tensor2 bool) (v : A)
    : result (tensor2 A) :=
  if same_shape t mask then
    Ok (mkT2 (shape0 t) (shape1 t)
             (zip_with (fun x (m : bool) => if m then v else x) (data t) (data mask)))
  else Err IndexError.

(** [t[mask]]: the selected elements, as a 1-dimensional tensor. *)
Definition getitem_mask {A} (t : tensor2 A) (mask : tensor2 bool) : result (list A) :=
  if same_shape t mask then
    Ok (flat_map (fun p : A * bool => if snd p then [fst p] else [])
                 (combine (data t) (data mask)))
  else Err IndexError.

(** [t.sum().item()]: the float32 sum of the entries, as a Python float. *)
Definition t_sum_item `{Float32Sum} (t : tensor2 Q) : pynum :=
  PFloat (f32_sum (data t)).

(** [accuracy(predictions, truth, ignore_idx)] *)
Definition accuracy `{Float32Sum} (predictions truth : tensor2 Z) (ignore_idx : Z)
    : result (pynum * pynum) :=
  let correct_words := ones (shape0 predictions) (shape1 predictions) in
  and_then (t_ne predictions truth) (fun ne_mask =>
  and_then (setitem_mask correct_words ne_mask 0%Q) (fun correct_words =>
  and_then (setitem_mask correct_words (t_eq_scalar truth ignore_idx) 1%Q)
    (fun correct_words =>
  let num_correct_words := t_sum_item correct_words in
  and_then (getitem_mask truth (t_eq_scalar truth ignore_idx)) (fun selected =>
  let num_masked_words := PInt (Z.of_nat (length selected)) in
  Ok (num_sub (num_mul (PInt (Z.of_nat (shape0 predictions)))
                       (PInt (Z.of_nat (shape1 predictions))))
              num_masked_words,
      num_sub num_correct_words num_masked_words))))).

(** A 3-dimensional tensor: its shape and, in row-major order of the first
    two dimensions, the vectors along the last dimension. *)
Record tensor3 (A : Type) : Type := mkT3 {
  dim0 : nat;
  dim1 : nat;
  dim2 : nat;
  vectors : list (list A)
}.
Arguments mkT3 {A} dim0 dim1 dim2 vectors.
Arguments dim0 {A} t.
Arguments dim1 {A} t.
Arguments dim2 {A} t.
Arguments vectors {A} t.

Section MeasureAccuracy.
Context `{TorchAPI}.
Context `{Float32Sum}.
(** the input batches, and the scores a network puts out *)
Variables (batch_x score : Type).
(** [a > b] on scores *)
Variable gtb : score -> score -> bool.
(** whether torch knows the device string *)
Variable valid_device : string -> bool.

(** [t.to(device)] *)
Definition to_device {A} (t : A) (device : string) : result A :=
  if valid_device device then Ok t else Err RuntimeError.

(** Index of the first maximal element, scanning from position [i] with
    [best] at [besti] the maximum so far. *)
Fixpoint argmax_from (best : score) (besti i : nat) (l : list score) : nat :=
  match l with
  | [] => besti
  | x :: l' =>
      if gtb x best then argmax_from x i (S i) l'
      else argmax_from best besti (S i) l'
  end.

Definition argmax_vector (l : list score) : Z :=
  match l with
  | [] => 0
  | x :: l' => Z.of_nat (argmax_from x 0 1 l')
  end.

(** [pred.argmax(dim=-1)]; a last dimension of size 0 raises. *)
Definition argmax_last (pred : tensor3 score) : result (tensor2 Z) :=
  if Nat.eqb (dim2 pred) 0 then Err IndexError
  else Ok (mkT2 (dim0 pred) (dim1 pred) (map argmax_vector (vectors pred))).

(** The [for] loop of [measure_accuracy], over the batches the dataloader
    yields. *)
Fixpoint measure_loop (network : batch_x -> M (tensor3 score))
    (dataloader : list (batch_x * tensor2 Z)) (device : string)
    (correct total : pynum) : M (pynum * pynum) :=
  match dataloader with
  | [] => ret (correct, total)
  | (x_batch, y_batch) :: rest =>
      x <- lift (to_device x_batch device) ;;
      pred <- network x ;;
      predictions <- lift (argmax_last pred) ;;
      truth <- lift (to_device y_batch device) ;;
      r <- lift (accuracy predictions truth 0) ;;
      let '(local_total, local_correct) := r in
      measure_loop network rest device
                   (num_add correct local_correct) (num_add total local_total)
  end.

(** [measure_accuracy(network, dataloader, device)] *)
Definition measure_accuracy (network : batch_x -> M (tensor3 score))
    (dataloader : list (batch_x * tensor2 Z)) (device : string) : M pynum :=
  r <- measure_loop network dataloader device (PInt 0) (PInt 0) ;;
  let '(correct, total) := r in
  lift (num_truediv correct total).

(** The pairs [accuracy] returns, batch by batch: the network is run on
    the inputs of each batch in turn and [accuracy] is applied to the
    argmax over the last dimension of its output and the true labels,
    with ignored value 0. *)
Fixpoint batch_counts (network : batch_x -> M (tensor3 score))
    (dataloader : list (batch_x * tensor2 Z)) (device : string)
    : M (list (pynum * pynum)) :=
  match dataloader with
  | [] => ret []
  | (x_batch, y_batch) :: rest =>
      x <- lift (to_device x_batch device) ;;
      pred <- network x ;;
      predictions <- lift (argmax_last pred) ;;
      truth <- lift (to_device y_batch device) ;;
      r <- lift (accuracy predictions truth 0) ;;
      rs <- batch_counts network rest device ;;
      ret (r :: rs)
  end.
End MeasureAccuracy.

Definition sum_Q (l : list Q) : Q := fold_right Qplus 0%Q l.

(** Sum over all batches of the total counts, and of the correct counts. *)
Definition sum_totals (rs : list (pynum * pynum)) : Q :=
  sum_Q (map (fun r => to_Q (fst r)) rs).

Definition sum_corrects (rs : list (pynum * pynum)) : Q :=
  sum_Q (map (fun r => to_Q (snd r)) rs).

(** The mean over the batches of each batch's own accuracy. *)
Definition mean_of_batch_accuracies (rs : list (pynum * pynum)) : Q :=
  (sum_Q (map (fun r => to_Q (snd r) / to_Q (fst r)) rs)
   / inject_Z (Z.of_nat (length rs)))%Q.

(* ------------------------------------------------------------------ *)
(** ** The counts the accuracy functions are documented to return *)

(** A label equal to the ignored value. *)
Definition is_ignored (ignore_idx y : Z) : bool := Z.eqb y ignore_idx.

(** A (prediction, label) pair: the prediction equals the label and the
    label is not the ignored value. *)
Definition is_correct (ignore_idx : Z) (p : Z * Z) : bool :=
  Z.eqb (fst p) (snd p) && negb (is_ignored ignore_idx (snd p)).

(** The entries of [correct_words] after the two masked assignments: 1
    where the label is ignored or the prediction equals the label, 0
    elsewhere. *)
Definition correct_flags (ignore_idx : Z) (dp dt : list Z) : list Z :=
  map (fun xy : Z * Z =>
         if is_ignored ignore_idx (snd xy) || Z.eqb (fst xy) (snd xy)
         then 1 else 0)
      (combine dp dt).




(* ------------------------------------------------------------------ *)
(** ** A small instance of the torch interface

    One feature per vector and integer entries: a tensor is the list of its
    entries, a linear layer multiplies by its single weight and adds its
    single bias, and the generator is a counter whose successive values are
    the parameters drawn.  It serves to evaluate the cells on concrete
    inputs. *)

Module Toy.
Definition pointwise (f : Z -> Z) (v : pyval (list Z)) : result (pyval (list Z)) :=
  match v with
  | VTensor xs => Ok (VTensor (map f xs))
  | _ => Err TypeError
  end.

Definition linear (input : pyval (list Z)) (w : list Z) (b : option (list Z))
    : result (pyval (list Z)) :=
  match w with
  | [w0] =>
      match b with
      | None => pointwise (fun x => w0 * x) input
      | Some [b0] => pointwise (fun x => w0 * x + b0) input
      | Some _ => Err RuntimeError
      end
  | _ => Err RuntimeError
  end.

Definition add (a b : pyval (list Z)) : result (pyval (list Z)) :=
  match a, b with
  | VTensor xs, VTensor ys =>
      if Nat.eqb (length xs) (length ys)
      then Ok (VTensor (zip_with Z.add xs ys))
      else Err RuntimeError
  | VList xs, VList ys => Ok (VList (xs ++ ys))
  | VInt x, VInt y => Ok (VInt (x + y))
  | _, _ => Err TypeError
  end.

Definition linear_init (i o : Z) (with_bias : bool) (g : Z)
    : Linear (list Z) * Z :=
  (mkLinear [g] (if with_bias then Some [g + 1] else None), g + 2).

Definition rnn_init (i h : Z) (f : string) (g : Z) : result (RNN (list Z) * Z) :=
  if String.eqb f "tanh" || String.eqb f "relu"
  then Ok (mkRNN [g] [g + 1] [g + 2] [g + 3] f, g + 4)
  else Err ValueError.

Definition unbind (v : pyval (list Z)) : result (list (pyval (list Z))) :=
  match v with
  | VTensor xs => Ok (map (fun x => VTensor [x]) xs)
  | _ => Err TypeError
  end.

Fixpoint stack (l : list (pyval (list Z))) : result (pyval (list Z)) :=
  match l with
  | [] => Err RuntimeError
  | [VTensor xs] => Ok (VTensor xs)
  | VTensor xs :: l' =>
      match stack l' with
      | Ok (VTensor ys) => Ok (VTensor (xs ++ ys))
      | Ok _ => Err TypeError
      | Err e => Err e
      end
  | _ => Err TypeError
  end.

(** [tanh] has no integer counterpart; the instance clamps to [-1, 1] in
    its place. *)
Definition clamp (x : Z) : Z := Z.max (-1) (Z.min 1 x).

#[export] Instance torch : TorchAPI := {|
  tensor := list Z;
  generator := Z;
  F_linear := linear;
  py_add := add;
  Linear_init := linear_init;
  RNN_init := rnn_init;
  torch_tanh := pointwise clamp;
  torch_relu := pointwise (Z.max 0);
  unbind0 := unbind;
  stack0 := stack;
  zeros_hidden := fun _ _ => Ok (VTensor [0])
|}.

(** The identity, as a Python callable ([lambda t: t]). *)
Definition identity (v : pyval (list Z)) : result (pyval (list Z)) := Ok v.

(** An interpreter state in which the module-level name [X] is bound to
    [x] and the generator is at [g]. *)
Definition state_with_X (x : pyval (list Z)) (g : Z) : @pystate torch :=
  mkState {[ "X" := x ]} ∅ g [].

(** An interpreter state in which [X] is not bound, as after the
    notebook's [del X]. *)
Definition state_without_X (g : Z) : @pystate torch :=
  mkState ∅ ∅ g [].

(** A network with weights 2, 3 (bias 1) and 1 (bias 0). *)
Definition srn : @mySRN.t torch :=
  mySRN.mk identity identity "cpu"
           (mkLinear [2] None) (mkLinear [3] (Some [1])) (mkLinear [1] (Some [0])).

(** A network that puts out its input: the batches are score tensors. *)
Definition echo_network (x : tensor3 Z) : @M torch (tensor3 Z) := ret x.

Definition cpu_only (device : string) : bool := String.eqb device "cpu".

(** Two batches: one token, tagged correctly; three tokens, all tagged
    wrongly. *)
Definition two_batches : list (tensor3 Z * tensor2 Z) :=
  [ (mkT3 1 1 2 [[0; 1]], mkT2 1 1 [1]);
    (mkT3 3 1 2 [[1; 0]; [1; 0]; [1; 0]], mkT2 3 1 [1; 1; 1]) ].

(** A [fastSRN] with one input, hidden and output feature, as [__init__]
    leaves it. *)
Definition fast : @fastSRN.t torch :=
  fastSRN.mk 1 1 1 "relu" (fastSRN.PlainCallable (fun v => ret v)) "cpu" ∅.

(** [torch.nn.PReLU()], a Module with the one trainable parameter [weight]:
    max(0, x) + weight * min(0, x). *)
Definition prelu (weight : Z) : @fastSRN.activation torch :=
  fastSRN.ModuleCallable {[ "weight" := [weight] ]}
    (fun params v =>
       match params !! "weight" with
       | Some [w] => lift (pointwise (fun x => Z.max 0 x + w * Z.min 0 x) v)
       | _ => raise RuntimeError
       end).

(** The same [fastSRN] with [torch.nn.PReLU()] as output activation, the
    weight being 2. *)
Definition fast_prelu : @fastSRN.t torch :=
  fastSRN.mk 1 1 1 "relu" (prelu 2) "cpu" ∅.

(** The [mySRN] whose layers carry the parameters [fast] draws when the
    generator is at 1: input weight 1, recurrent weight 2, the two
    recurrent biases 3 + 4 folded into one, output weight 5 and bias 6. *)
Definition matching_srn : @mySRN.t torch :=
  mySRN.mk (pointwise (Z.max 0)) identity "cpu"
           (mkLinear [1] None) (mkLinear [2] (Some [7])) (mkLinear [5] (Some [6])).
End Toy.

(* ------------------------------------------------------------------ *)
(** ** Module-level statements of the notebook cells *)

Section ModuleStatements.
Context `{TorchAPI}.

(** [name = v] *)
Definition assign_global (name : string) (v : value) : M unit :=
  fun s =>
    (Ret tt, mkState (<[name := v]> (globals s)) (heap s) (rng s) (trace s)).

(** [del name]: the name must be bound. *)
Definition del_global (name : string) : M unit :=
  fun s =>
    match globals s !! name with
    | Some _ =>
        (Ret tt, mkState (delete name (globals s)) (heap s) (rng s) (trace s))
    | None => (Raise (NameError name), s)
    end.

(** [del n1, n2, ...]: the targets are deleted one after the other, from
    left to right. *)
Fixpoint del_globals (names : list string) : M unit :=
  match names with
  | [] => ret tt
  | name :: rest => del_global name ;;; del_globals rest
  end.

(** The cell [del mySRN, rnn, X, h]. *)
Definition cell_del_mySRN : M unit := del_globals ["mySRN"; "rnn"; "X"; "h"].

(** The cell [del x_1, x_2, x_3, X]. *)
Definition cell_del_padding_example : M unit :=
  del_globals ["x_1"; "x_2"; "x_3"; "X"].
End ModuleStatements.

(* ------------------------------------------------------------------ *)
(** ** The cell that turns the POS tags into numbers *)

(** Result of a chain of dictionary lookups: the value, or [KeyError] with
    the key that is missing. *)
Inductive keyed (A : Type) : Type :=
| Found (a : A)
| KeyError (key : string).
Arguments Found {A} a.
Arguments KeyError {A} key.

(** The list comprehension [[pos_to_int[pos] for pos in pos_sequence]]. *)
Fixpoint encode_sequence (pos_to_int : gmap string Z) (pos_sequence : list string)
    : keyed (list Z) :=
  match pos_sequence with
  | [] => Found []
  | pos :: rest =>
      match pos_to_int !! pos with
      | None => KeyError pos
      | Some n =>
          match encode_sequence pos_to_int rest with
          | Found ns => Found (n :: ns)
          | KeyError key => KeyError key
          end
      end
  end.

(** [pos_numeric = list(map(lambda pos_sequence: [...], postags))] *)
Fixpoint pos_numeric (pos_to_int : gmap string Z) (postags : list (list string))
    : keyed (list (list Z)) :=
  match postags with
  | [] => Found []
  | pos_sequence :: rest =>
      match encode_sequence pos_to_int pos_sequence with
      | KeyError key => KeyError key
      | Found ns =>
          match pos_numeric pos_to_int rest with
          | Found nss => Found (ns :: nss)
          | KeyError key => KeyError key
          end
      end
  end.

(* ================================================================== *)
(** * Properties *)

(** ** States and traces *)

Section TraceFacts.
Context `{TorchAPI}.

Lemma with_events_app (s : pystate) (es es' : list event) :
  with_events (with_events s es) es' = with_events s (es ++ es').
Proof. unfold with_events; simpl. by rewrite app_assoc. Qed.

(** [n] rounds of the loop print [n] lines and enter [step] [n] times. *)
Lemma stdout_rounds (s : pystate) (n : nat) (ht : value) :
  stdout (with_events s (mySRN.rounds n ht)) = stdout s ++ repeat ht n.
Proof.
  unfold stdout, with_events. cbn [trace]. rewrite flat_map_app. f_equal.
  induction n as [|n IH]; [done|].
  unfold mySRN.rounds in *. cbn [repeat concat app flat_map]. by rewrite IH.
Qed.

Lemma calls_of_rounds (s : pystate) (n : nat) (ht : value) :
  calls_of "step" (with_events s (mySRN.rounds n ht))
  = (calls_of "step" s + n)%nat.
Proof.
  unfold calls_of, with_events. cbn [trace].
  rewrite List.filter_app, length_app. f_equal.
  induction n as [|n IH]; [done|].
  unfold mySRN.rounds in *. cbn [repeat concat app List.filter length].
  cbn. by rewrite IH.
Qed.
End TraceFacts.

(** ** [mySRN] *)

Section MySRNFacts.
Context `{TorchAPI}.

(** What a call of [step] does: it looks up the global [X] and computes
    the documented step from it. *)
Lemma step_run (self : mySRN.t) (x h : value) (s : pystate) :
  mySRN.step self x h s =
  (match globals s !! "X" with
   | None => Raise (NameError "X")
   | Some gX => outcome_of (mySRN.step_documented self gX h)
   end, with_events s [Called "step"]).
Proof.
  unfold mySRN.step, mySRN.step_documented, bind, emit, load_global, with_events.
  simpl. destruct (globals s !! "X") as [gX|]; [|done].
  repeat match goal with
         | |- context [lift ?r] => destruct r; simpl; [|done]
         end.
  done.
Qed.

(** A run of the loop on a non-empty list: it stops only when the fuel is
    used up or [step] raises. *)
Lemma forward_loop_nonempty (fuel : nat) (self : mySRN.t) (x : value)
    (X' : list value) (h ht yt : value) (s : pystate) :
  mySRN.forward_loop fuel self (x :: X') h ht yt s =
  match fuel with
  | O => (Timeout, s)
  | S _ =>
      match globals s !! "X" with
      | None => (Raise (NameError "X"), with_events s [Called "step"])
      | Some gX =>
          match mySRN.step_documented self gX h with
          | Err e => (Raise e, with_events s [Called "step"])
          | Ok r => (Timeout, with_events s (mySRN.rounds fuel (fst r)))
          end
      end
  end.
Proof.
  revert ht yt s. induction fuel as [|fuel IH]; intros ht yt s; [done|].
  cbn [mySRN.forward_loop length Nat.eqb negb].
  unfold bind at 1. rewrite step_run.
  destruct (globals s !! "X") as [gX|] eqn:HX; [|done].
  destruct (mySRN.step_documented self gX h) as [[ht' yt']|e] eqn:Hstep; [|done].
  cbn [outcome_of]. unfold bind at 1, print, emit. cbn [fst].
  change (mkState _ _ _ _)
    with (with_events (with_events s [Called "step"]) [Printed ht']).
  rewrite with_events_app, IH. destruct fuel as [|fuel]; [done|].
  cbn [with_events globals]. rewrite HX, Hstep. cbn [fst].
  by rewrite with_events_app, <- app_assoc.
Qed.
End MySRNFacts.

(** C8: the result of [mySRN.step] does not depend on its parameter [x].
    For every instance, every hidden vector [h], every two values [x1] and
    [x2] and every interpreter state, [step(x1, h)] and [step(x2, h)] end in
    the same value or the same exception and leave the same state, because
    the input layer is applied to the module-level name [X]: the outcome is
    the documented step computed from the global [X], or [NameError] when
    [X] is unbound. *)
Theorem step_ignores_parameter_x `{TorchAPI} (self : mySRN.t)
    (x1 x2 h : value) (s : pystate) :
  mySRN.step self x1 h s = mySRN.step self x2 h s
  /\ fst (mySRN.step self x1 h s) =
     match globals s !! "X" with
     | None => Raise (NameError "X")
     | Some gX => outcome_of (mySRN.step_documented self gX h)
     end.
Proof.
  split; [reflexivity|]. by rewrite step_run.
Qed.

(** C10: [mySRN.forward([], h)] returns the empty list, leaves the state as
    it was and enters [step] not once; on a non-empty list [forward] never
    returns normally, whatever number of loop tests it is given: the list is
    the same at every test, so the run either raises in the first call of
    [step] or is still looping, having printed once per round. *)
Theorem forward_empty_returns_nonempty_never `{TorchAPI} (self : mySRN.t)
    (x : value) (X' : list value) (h : value) (s : pystate) (fuel : nat) :
  mySRN.forward (S fuel) self [] h s = (Ret (VList []), s)
  /\ calls_of "step" (snd (mySRN.forward (S fuel) self [] h s)) = calls_of "step" s
  /\ returns_normally (fst (mySRN.forward fuel self (x :: X') h s)) = false
  /\ mySRN.forward (S fuel) self (x :: X') h s =
     match globals s !! "X" with
     | None => (Raise (NameError "X"), with_events s [Called "step"])
     | Some gX =>
         match mySRN.step_documented self gX h with
         | Err e => (Raise e, with_events s [Called "step"])
         | Ok r => (Timeout, with_events s (mySRN.rounds (S fuel) (fst r)))
         end
     end.
Proof.
  repeat split; try reflexivity; unfold mySRN.forward;
    rewrite forward_loop_nonempty; [|reflexivity].
  destruct fuel; [done|].
  destruct (globals s !! "X"); [|done].
  by destruct (mySRN.step_documented _ _ _).
Qed.

(** C1, at a concrete input: with the global [X] bound to the tensor 5,
    [step] called on the input 1 and the hidden state 0 returns the hidden
    state and output 11, computed from 5, where the documented step
    h_t = hidden_activation(x_to_h(x) + h_to_h(h)) gives 3; with [X]
    unbound the same call raises [NameError]. *)
Theorem step_computes_from_global_X_not_x :
  fst (mySRN.step Toy.srn (VTensor [1]) (VTensor [0])
                  (Toy.state_with_X (VTensor [5]) 0))
  = Ret (VTensor [11], VTensor [11])
  /\ mySRN.step_documented Toy.srn (VTensor [1]) (VTensor [0])
     = Ok (VTensor [3], VTensor [3])
  /\ fst (mySRN.step Toy.srn (VTensor [1]) (VTensor [0]) (Toy.state_without_X 0))
     = Raise (NameError "X").
Proof. repeat split; vm_compute; reflexivity. Qed.

(** C2, at a concrete input: on the one-element list [5] with hidden state
    0 (and the global [X] bound to the tensor 5) the documented forward
    pass returns the one-element list [11], while [forward] is still in
    its loop after any number of rounds, having entered [step] and printed
    11 once in each. *)
Theorem forward_never_leaves_loop_on_singleton (fuel : nat) :
  mySRN.forward_documented Toy.srn [VTensor [5]] (VTensor [0]) = Ok [VTensor [11]]
  /\ mySRN.forward (S fuel) Toy.srn [VTensor [5]] (VTensor [0])
                   (Toy.state_with_X (VTensor [5]) 0)
     = (Timeout, with_events (Toy.state_with_X (VTensor [5]) 0)
                             (@mySRN.rounds Toy.torch (S fuel) (VTensor [11])))
  /\ stdout (snd (mySRN.forward (S fuel) Toy.srn [VTensor [5]] (VTensor [0])
                                 (Toy.state_with_X (VTensor [5]) 0)))
     = repeat (VTensor [11]) (S fuel)
  /\ calls_of "step"
       (snd (mySRN.forward (S fuel) Toy.srn [VTensor [5]] (VTensor [0])
                           (Toy.state_with_X (VTensor [5]) 0)))
     = S fuel.
Proof.
  assert (mySRN.forward (S fuel) Toy.srn [VTensor [5]] (VTensor [0])
                        (Toy.state_with_X (VTensor [5]) 0)
          = (Timeout, with_events (Toy.state_with_X (VTensor [5]) 0)
                                  (@mySRN.rounds Toy.torch (S fuel) (VTensor [11]))))
    as Hrun.
  { unfold mySRN.forward. rewrite (forward_loop_nonempty (H := Toy.torch)).
    reflexivity. }
  split; [vm_compute; reflexivity|]. split; [exact Hrun|].
  rewrite Hrun. cbn [snd].
  rewrite (stdout_rounds (H := Toy.torch)), (calls_of_rounds (H := Toy.torch)).
  split; reflexivity.
Qed.

(** C3, at a concrete input: on the two-step sequence 1, 2 [fastSRN.forward]
    (generator at 1) returns the outputs 46, 131, and so does the documented
    forward pass of the [mySRN] that carries the same weights, from a zero
    hidden state; [mySRN.forward] on the corresponding list returns nothing,
    whatever number of loop tests it is given. *)
Theorem fastSRN_returns_where_mySRN_loops (fuel : nat) :
  fst (fastSRN.forward Toy.fast (VTensor [1; 2]) None (Toy.state_with_X (VTensor [1]) 1))
  = Ret (VTensor [46; 131])
  /\ mySRN.forward_documented Toy.matching_srn [VTensor [1]; VTensor [2]] (VTensor [0])
     = Ok [VTensor [46]; VTensor [131]]
  /\ returns_normally
       (fst (mySRN.forward fuel Toy.matching_srn [VTensor [1]; VTensor [2]] (VTensor [0])
                           (Toy.state_with_X (VTensor [1]) 1)))
     = false.
Proof.
  repeat split; try (vm_compute; reflexivity).
  unfold mySRN.forward. rewrite (forward_loop_nonempty (H := Toy.torch)).
  destruct fuel; reflexivity.
Qed.

(** ** [fastSRN] *)

(** C9, as the code has it: [fastSRN.__init__] creates no layer and
    registers no parameter of its own (its table is empty, the generator
    untouched); the registered parameters of the module are those of
    [output_activation] when that is a Module, and none otherwise.  Every
    call of [forward] draws a new recurrent layer and a new output layer from
    torch's generator and computes with them, so that two successive calls on
    the same instance and input can return different outputs.  An update of
    the registered parameters changes [forward] only through the parameters
    of [output_activation], and not at all when that is not a Module. *)
Theorem fastSRN_forward_draws_fresh_layers :
  (forall (T : TorchAPI) (input_dim hidden_dim output_dim : Z) (ha : string)
          (oa : fastSRN.activation) (device : string) (s : pystate),
      fastSRN.__init__ input_dim hidden_dim output_dim ha oa device s
      = (Ret (fastSRN.mk input_dim hidden_dim output_dim ha oa device ∅), s)
      /\ fastSRN.named_parameters
           (fastSRN.mk input_dim hidden_dim output_dim ha oa device ∅)
         = match oa with
           | fastSRN.PlainCallable _ => []
           | fastSRN.ModuleCallable params _ =>
               map (fun p => (String.append "output_activation." (fst p), snd p))
                   (map_to_list params)
           end)
  /\ (forall (T : TorchAPI) (self : fastSRN.t) (X : value) (h : option value)
             (s : pystate),
        fastSRN.forward self X h s =
        match RNN_init (fastSRN.input_size self) (fastSRN.hidden_size self)
                       (fastSRN.hidden_activation self) (rng s) with
        | Err e => (Raise e, s)
        | Ok (myrnn, g1) =>
            let fresh := Linear_init (fastSRN.hidden_size self)
                                     (fastSRN.output_size self) true g1 in
            bind (lift (and_then (RNN_call myrnn X) (fun r =>
                        Linear_call (fst fresh) (fst r))))
                 (fastSRN.call_activation (fastSRN.output_activation self))
                 (with_rng s (snd fresh))
        end)
  /\ (forall (T : TorchAPI) (self : fastSRN.t) (own sub : gmap string tensor)
             (X : value) (h : option value) (s : pystate),
        fastSRN.forward (fastSRN.update_parameters self own sub) X h s
        = fastSRN.forward
            (fastSRN.update_parameters self (fastSRN._parameters self) sub) X h s
        /\ match fastSRN.output_activation self with
           | fastSRN.PlainCallable _ =>
               fastSRN.forward (fastSRN.update_parameters self own sub) X h s
               = fastSRN.forward self X h s
           | fastSRN.ModuleCallable _ _ => True
           end)
  /\ (exists (T : TorchAPI) (self : fastSRN.t) (X : value) (s s1 s2 : pystate)
             (y1 y2 : value),
        fastSRN.forward self X None s = (Ret y1, s1)
        /\ fastSRN.forward self X None s1 = (Ret y2, s2)
        /\ y1 <> y2).
Proof.
  split; [|split; [|split]].
  - intros. split; [reflexivity|].
    unfold fastSRN.named_parameters. cbn [fastSRN._parameters fastSRN.output_activation].
    by rewrite map_to_list_empty.
  - intros T self X h s.
    unfold fastSRN.forward, bind, draw_result, draw, with_rng.
    destruct (RNN_init _ _ _ _) as [[myrnn g1]|e]; [|done]. simpl.
    destruct (Linear_init _ _ _ _) as [h_to_y g2]. simpl.
    destruct (RNN_call myrnn X) as [[ht hn]|e]; [|done]. simpl.
    destruct (Linear_call h_to_y ht) as [c|e]; [|done]. simpl.
    by destruct (fastSRN.call_activation _ c _) as [[yt| |] s'].
  - intros T self own sub X h s. split; [reflexivity|].
    destruct self as [i hd o ha [f|params fwd] dev ps]; [reflexivity|exact I].
  - exists Toy.torch, Toy.fast, (VTensor [1; 2]), (Toy.state_without_X 1).
    do 2 eexists. exists (VTensor [46; 131]), (VTensor [298; 2663]).
    split; [vm_compute; reflexivity|].
    split; [vm_compute; reflexivity|]. discriminate.
Qed.

(** C9, at a concrete input: a [fastSRN] built with [torch.nn.PReLU()] as
    output activation has the registered parameter
    [output_activation.weight], and updating that parameter from 2 to 3
    changes what [forward] returns from the same state and input. *)
Lemma fastSRN_activation_parameter_registered_and_used :
  fst (fastSRN.__init__ 1 1 1 "relu" (Toy.prelu 2) "cpu" (Toy.state_without_X (-10)))
  = Ret Toy.fast_prelu
  /\ fastSRN.named_parameters Toy.fast_prelu = [("output_activation.weight", [2])]
  /\ fst (fastSRN.forward Toy.fast_prelu (VTensor [1]) None (Toy.state_without_X (-10)))
     = Ret (VTensor [-10])
  /\ fst (fastSRN.forward
            (fastSRN.update_parameters Toy.fast_prelu ∅ {[ "weight" := [3] ]})
            (VTensor [1]) None (Toy.state_without_X (-10)))
     = Ret (VTensor [-15]).
Proof. repeat split; vm_compute; reflexivity. Qed.

(** ** The unfinished cells *)

(** C6: each of the eight placeholder operations has the one-statement body
    [NotImplemented]: for every argument and every interpreter state the
    call evaluates that constant, changes nothing in the state and returns
    [None]. *)
Theorem placeholders_return_None `{TorchAPI} (s : pystate) (self : loc)
    (a b c d e : value) (device : string) :
  let body := call (expr_stmt (const VNotImplemented)) in
  body s = (Ret VNone, s)
  /\ UnevenLengthDataset.__init__ self a b = body
  /\ UnevenLengthDataset.__len__ self = body
  /\ UnevenLengthDataset.__getitem__ self a = body
  /\ pad_batch a = body
  /\ train_batch a b c d e = body
  /\ train_epoch a b c d device = body
  /\ eval_batch a b c d = body
  /\ eval_epoch a b c device = body.
Proof. repeat split. Qed.

(** C5, at a concrete input: on a batch of two pairs whose sequences have
    lengths 2 and 1, [pad_batch] returns no pair of tensors. *)
Lemma pad_batch_returns_no_pair :
  ~ exists (X Y : pyval (list Z)) (s' : @pystate Toy.torch),
      @pad_batch Toy.torch
                 (VList [VTuple [VTensor [1; 2]; VTensor [7; 8]];
                         VTuple [VTensor [3]; VTensor [9]]])
                 (Toy.state_without_X 0)
      = (Ret (VTuple [X; Y]), s').
Proof. intros (X & Y & s' & Heq). discriminate Heq. Qed.

(** C5, as the code has it: [pad_batch] is an unfinished placeholder; for
    every batch it returns [None] and leaves the state unchanged, so it
    returns no pair of padded tensors. *)
Theorem pad_batch_returns_None `{TorchAPI} (batch : value) (s : pystate) :
  pad_batch batch s = (Ret VNone, s)
  /\ forall (X Y : value) (s' : pystate),
       pad_batch batch s <> (Ret (VTuple [X; Y]), s').
Proof. split; [reflexivity|]. intros X Y s'. discriminate. Qed.

(** ** [accuracy] *)

(** The selection [truth[truth == ignore_idx]] has one element per ignored
    position. *)
Lemma selected_length (ignore_idx : Z) (dt : list Z) :
  length (flat_map (fun p : Z * bool => if snd p then [fst p] else [])
                   (combine dt (map (is_ignored ignore_idx) dt)))
  = length (List.filter (is_ignored ignore_idx) dt).
Proof.
  induction dt as [|y dt IH]; [done|].
  cbn [map combine flat_map List.filter fst snd].
  destruct (is_ignored ignore_idx y); simpl; by rewrite IH.
Qed.

(** Ignored and other positions together are all positions. *)
Lemma ignored_split (ignore_idx : Z) (dt : list Z) :
  length dt
  = (length (List.filter (is_ignored ignore_idx) dt)
     + length (List.filter (fun y => negb (is_ignored ignore_idx y)) dt))%nat.
Proof.
  induction dt as [|y dt IH]; [done|].
  cbn [List.filter length]. destruct (is_ignored ignore_idx y); simpl; lia.
Qed.

(** After the two masked assignments an entry is 1 exactly at the ignored
    and at the correctly predicted positions. *)
Lemma final_correct_words (ignore_idx : Z) (n : nat) (dp dt : list Z) :
  length dp = n -> length dt = n ->
  zip_with (fun (x : Q) (m : bool) => if m then 1%Q else x)
    (zip_with (fun (x : Q) (m : bool) => if m then 0%Q else x)
       (repeat 1%Q n)
       (zip_with (fun x y => negb (Z.eqb x y)) dp dt))
    (map (is_ignored ignore_idx) dt)
  = map inject_Z (correct_flags ignore_idx dp dt).
Proof.
  unfold correct_flags.
  revert dp dt. induction n as [|n IH]; intros dp dt Hp Ht.
  - by destruct dp, dt.
  - destruct dp as [|x dp], dt as [|y dt]; try discriminate.
    injection Hp as Hp. injection Ht as Ht.
    cbn [repeat zip_with map combine fst snd]. rewrite (IH dp dt Hp Ht).
    f_equal. by destruct (is_ignored ignore_idx y), (Z.eqb x y).
Qed.

Lemma correct_flags_nonneg (ignore_idx : Z) (dp dt : list Z) :
  Forall (fun z => 0 <= z) (correct_flags ignore_idx dp dt).
Proof.
  unfold correct_flags. induction (combine dp dt) as [|xy l IH]; cbn [map].
  - constructor.
  - constructor; [|done]. destruct (_ || _); lia.
Qed.

(** The entries add up to the number of ignored and of correctly predicted
    positions, which is at most the number of positions. *)
Lemma correct_flags_sum (ignore_idx : Z) (dp dt : list Z) :
  length dp = length dt ->
  sum_Z (correct_flags ignore_idx dp dt)
  = Z.of_nat (length (List.filter (is_ignored ignore_idx) dt))
    + Z.of_nat (length (List.filter (is_correct ignore_idx) (combine dp dt)))
  /\ sum_Z (correct_flags ignore_idx dp dt) <= Z.of_nat (length dt).
Proof.
  unfold correct_flags, sum_Z.
  revert dt. induction dp as [|x dp IH]; intros [|y dt] Hlen; try discriminate.
  - cbn. lia.
  - injection Hlen as Hlen. destruct (IH dt Hlen) as [IHsum IHle].
    cbn [combine map fold_right List.filter length fst snd].
    revert IHsum IHle.
    generalize (fold_right Z.add 0
                  (map (fun xy : Z * Z =>
                          if is_ignored ignore_idx (snd xy) || Z.eqb (fst xy) (snd xy)
                          then 1 else 0) (combine dp dt))),
               (List.filter (is_ignored ignore_idx) dt),
               (List.filter (is_correct ignore_idx) (combine dp dt)).
    intros total ignored corrects IHsum IHle.
    unfold is_correct. cbn [fst snd].
    destruct (is_ignored ignore_idx y), (Z.eqb x y);
      cbn [orb andb negb length]; lia.
Qed.


(** The run of [accuracy] on two tensors of shape (r, c). *)
Lemma accuracy_same_shape `{Float32Sum} (r c : nat) (dp dt : list Z)
    (ignore_idx : Z) :
  length dp = (r * c)%nat -> length dt = (r * c)%nat ->
  accuracy (mkT2 r c dp) (mkT2 r c dt) ignore_idx
  = Ok (PInt (Z.of_nat r * Z.of_nat c
              - Z.of_nat (length (List.filter (is_ignored ignore_idx) dt))),
        PFloat (f32_sum (map inject_Z (correct_flags ignore_idx dp dt))
                - inject_Z (Z.of_nat (length (List.filter (is_ignored ignore_idx)
                                                          dt))))).
Proof.
  intros Hp Ht.
  unfold accuracy, t_ne, setitem_mask, getitem_mask, t_eq_scalar, ones,
    same_shape, t_sum_item.
  change (fun x : Z => Z.eqb x ignore_idx) with (is_ignored ignore_idx).
  repeat (cbn [shape0 shape1 data and_then andb]; rewrite ?Nat.eqb_refl).
  cbn [num_mul num_sub to_Q]. rewrite selected_length.
  by rewrite (final_correct_words ignore_idx (r * c) dp dt Hp Ht).
Qed.





(** ** [measure_accuracy] *)

Lemma to_Q_num_add (a b : pynum) : (to_Q (num_add a b) == to_Q a + to_Q b)%Q.
Proof.
  destruct a, b; cbn [num_add to_Q]; try reflexivity.
  by rewrite inject_Z_plus.
Qed.

Section MeasureAccuracyFacts.
Context `{TorchAPI}.
Context `{Float32Sum}.
Variables (batch_x score : Type).
Variable gtb : score -> score -> bool.
Variable valid_device : string -> bool.
Variable network : batch_x -> M (tensor3 score).
Variable device : string.

(** The loop ends with the accumulators raised by the sums of the counts
    of the batches. *)
Lemma measure_loop_sums (dataloader : list (batch_x * tensor2 Z))
    (correct total : pynum) (s s' : pystate) (rs : list (pynum * pynum)) :
  batch_counts batch_x score gtb valid_device network dataloader device s
  = (Ret rs, s') ->
  exists correct' total',
    measure_loop batch_x score gtb valid_device network dataloader device
                 correct total s
    = (Ret (correct', total'), s')
    /\ (to_Q correct' == to_Q correct + sum_corrects rs)%Q
    /\ (to_Q total' == to_Q total + sum_totals rs)%Q.
Proof.
  unfold sum_corrects, sum_totals.
  revert correct total s rs.
  induction dataloader as [|[x_batch y_batch] rest IH]; intros correct total s rs.
  - cbn. intros [= <- <-]. exists correct, total.
    split; [done|]. cbn. split; ring.
  - cbn [measure_loop batch_counts]. unfold bind, lift, ret, raise.
    destruct (to_device valid_device x_batch device) as [x|]; [|done].
    destruct (network x s) as [[pred| |] s1]; [|done..].
    destruct (argmax_last score gtb pred) as [predictions|]; [|done].
    destruct (to_device valid_device y_batch device) as [truth|]; [|done].
    destruct (accuracy predictions truth 0) as [[local_total local_correct]|]; [|done].
    destruct (batch_counts _ _ _ _ _ rest device s1) as [[rs'| |] s2] eqn:Hrest;
      [|done..].
    cbn. intros [= <- <-].
    destruct (IH (num_add correct local_correct) (num_add total local_total)
                 s1 rs' Hrest) as (c' & t' & Hrun & Hc & Ht).
    exists c', t'. split; [done|].
    unfold sum_Q in *. cbn [map fold_right fst snd].
    split; [rewrite Hc|rewrite Ht]; rewrite to_Q_num_add; ring.
Qed.
End MeasureAccuracyFacts.

Lemma Qeq_bool_proper (a b : Q) : (a == b)%Q -> Qeq_bool a 0 = Qeq_bool b 0.
Proof.
  intros Hab.
  destruct (Qeq_bool a 0) eqn:Ha, (Qeq_bool b 0) eqn:Hb; try reflexivity.
  - apply Qeq_bool_iff in Ha. apply Qeq_bool_neq in Hb.
    exfalso. apply Hb. by rewrite <- Hab.
  - apply Qeq_bool_iff in Hb. apply Qeq_bool_neq in Ha.
    exfalso. apply Ha. by rewrite Hab.
Qed.

(** C7, as the code has it: when every batch is processed without an
    exception, [measure_accuracy] returns the sum over all batches of the
    correct counts [accuracy] returns for the argmax of the network's output
    against the true labels (ignored value 0), divided by the sum over all
    batches of the total counts, provided that sum is not zero; when it is
    zero, the call raises [ZeroDivisionError]. *)
Theorem measure_accuracy_micro_average `{TorchAPI} `{Float32Sum} (batch_x score : Type)
    (gtb : score -> score -> bool) (valid_device : string -> bool)
    (network : batch_x -> M (tensor3 score))
    (dataloader : list (batch_x * tensor2 Z)) (device : string)
    (s s' : pystate) (rs : list (pynum * pynum)) :
  batch_counts batch_x score gtb valid_device network dataloader device s
  = (Ret rs, s') ->
  if Qeq_bool (sum_totals rs) 0
  then measure_accuracy batch_x score gtb valid_device network dataloader device s
       = (Raise ZeroDivisionError, s')
  else exists q : Q,
       measure_accuracy batch_x score gtb valid_device network dataloader device s
       = (Ret (PFloat q), s')
       /\ (q == sum_corrects rs / sum_totals rs)%Q.
Proof.
  intros Hcounts.
  destruct (measure_loop_sums batch_x score gtb valid_device network device
              dataloader (PInt 0) (PInt 0) s s' rs Hcounts)
    as (correct & total & Hloop & Hcorrect & Htotal).
  unfold measure_accuracy, bind. rewrite Hloop.
  unfold num_truediv.
  change (to_Q (PInt 0)) with 0%Q in *.
  rewrite Qplus_0_l in Hcorrect, Htotal.
  rewrite (Qeq_bool_proper _ _ Htotal).
  destruct (Qeq_bool (sum_totals rs) 0); [reflexivity|].
  eexists. split; [reflexivity|]. by rewrite Hcorrect, Htotal.
Qed.

(** C7, witness: two batches, one token tagged correctly and three tokens
    tagged wrongly; the result is 1/4. *)
Lemma measure_accuracy_micro_average_witness :
  exists q : Q,
    measure_accuracy (tensor3 Z) Z Z.gtb Toy.cpu_only Toy.echo_network
                     Toy.two_batches "cpu" (Toy.state_without_X 0)
    = (Ret (PFloat q), Toy.state_without_X 0)
    /\ (q == 1 # 4)%Q.
Proof.
  pose proof (measure_accuracy_micro_average (tensor3 Z) Z Z.gtb Toy.cpu_only
                Toy.echo_network Toy.two_batches "cpu" (Toy.state_without_X 0)
                (Toy.state_without_X 0)
                [(PInt 1, PFloat 1); (PInt 3, PFloat 0)] eq_refl) as Hm.
  cbn [sum_totals sum_corrects] in Hm.
  destruct Hm as (q & Hrun & Hq).
  exists q. split; [exact Hrun|]. rewrite Hq. reflexivity.
Defined.

(** C7, at a concrete input: on an empty dataloader [measure_accuracy]
    returns no fraction; it raises [ZeroDivisionError]. *)
Lemma measure_accuracy_empty_dataloader_raises :
  measure_accuracy (tensor3 Z) Z Z.gtb Toy.cpu_only Toy.echo_network
                   [] "cpu" (Toy.state_without_X 0)
  = (Raise ZeroDivisionError, Toy.state_without_X 0).
Proof. reflexivity. Qed.

(** On the two batches above the mean of the per-batch accuracies is 1/2,
    not the 1/4 that [measure_accuracy] returns. *)
Lemma batch_mean_differs_from_micro_average :
  (mean_of_batch_accuracies [(PInt 1, PFloat 1); (PInt 3, PFloat 0)] == 1 # 2)%Q
  /\ ~ (1 # 2 == 1 # 4)%Q.
Proof. split; [reflexivity|discriminate]. Qed.

(* ================================================================== *)
(** * Further properties *)

(** ** [accuracy]: shapes, bounds, ignored positions *)

(** The counts [accuracy] returns on two tensors of shape (r, c) with at
    most 2^24 positions. *)
Lemma accuracy_run `{Float32Sum} (r c : nat) (dp dt : list Z) (ignore_idx : Z) :
  length dp = (r * c)%nat -> length dt = (r * c)%nat ->
  Z.of_nat (r * c) <= 2 ^ 24 ->
  exists q : Q,
    accuracy (mkT2 r c dp) (mkT2 r c dt) ignore_idx
    = Ok (PInt (Z.of_nat (length (List.filter
                                    (fun y => negb (is_ignored ignore_idx y)) dt))),
          PFloat q)
    /\ (q == inject_Z (Z.of_nat (length (List.filter (is_correct ignore_idx)
                                                     (combine dp dt)))))%Q.
Proof.
  intros Hp Ht Hsize. rewrite (accuracy_same_shape r c dp dt ignore_idx Hp Ht).
  eexists. split.
  - do 3 f_equal.
    pose proof (ignored_split ignore_idx dt) as Hsplit. rewrite Ht in Hsplit.
    lia.
  - destruct (correct_flags_sum ignore_idx dp dt) as [Hsum Hle]; [congruence|].
    rewrite f32_sum_exact; [|apply correct_flags_nonneg|lia].
    rewrite Hsum, inject_Z_plus. ring.
Qed.

(** A position counted as correct is a position that is not ignored. *)
Lemma correct_le_not_ignored (ignore_idx : Z) (dp dt : list Z) :
  (length (List.filter (is_correct ignore_idx) (combine dp dt))
   <= length (List.filter (fun y => negb (is_ignored ignore_idx y)) dt))%nat.
Proof.
  revert dt. induction dp as [|x dp IH]; intros [|y dt];
    cbn [combine List.filter length]; try lia.
  specialize (IH dt). unfold is_correct at 1. cbn [fst snd].
  destruct (Z.eqb x y), (is_ignored ignore_idx y); cbn [andb negb length]; lia.
Qed.



(** Predictions that differ only where the label is ignored are counted
    alike. *)
Lemma correct_agree (ignore_idx : Z) (dp dp' dt : list Z) :
  length dp = length dt -> length dp' = length dt ->
  (forall k : nat, nth k dt 0 <> ignore_idx -> nth k dp 0 = nth k dp' 0) ->
  length (List.filter (is_correct ignore_idx) (combine dp dt))
  = length (List.filter (is_correct ignore_idx) (combine dp' dt)).
Proof.
  revert dp dp'. induction dt as [|y dt IH]; intros [|x dp] [|x' dp'] Hp Hp' Hagree;
    try discriminate; [reflexivity|].
  injection Hp as Hp. injection Hp' as Hp'.
  assert (length (List.filter (is_correct ignore_idx) (combine dp dt))
          = length (List.filter (is_correct ignore_idx) (combine dp' dt))) as Htail.
  { apply IH; [done..|]. intros k Hk. exact (Hagree (S k) Hk). }
  cbn [combine List.filter]. revert Htail.
  generalize (List.filter (is_correct ignore_idx) (combine dp dt)),
             (List.filter (is_correct ignore_idx) (combine dp' dt)).
  intros corrects corrects' Htail.
  unfold is_correct, is_ignored. cbn [fst snd].
  destruct (Z.eqb_spec y ignore_idx) as [Hy|Hy].
  - rewrite !andb_false_r. exact Htail.
  - specialize (Hagree O Hy). cbn [nth] in Hagree. subst x'.
    destruct (Z.eqb x y); cbn [andb negb length]; by rewrite Htail.
Qed.










(** ** [measure_accuracy]: failing batches, devices, range, batch order *)

Lemma sum_Q_app (l l' : list Q) : (sum_Q (l ++ l') == sum_Q l + sum_Q l')%Q.
Proof.
  induction l as [|a l IH]; cbn [app sum_Q fold_right].
  - unfold sum_Q. cbn. ring.
  - unfold sum_Q in *. rewrite IH. ring.
Qed.

Lemma sum_Q_perm (l l' : list Q) : Permutation l l' -> (sum_Q l == sum_Q l')%Q.
Proof.
  unfold sum_Q. induction 1 as [|a l l' _ IH|a b l|l l' l'' _ IH _ IH'];
    cbn [fold_right].
  - reflexivity.
  - by rewrite IH.
  - ring.
  - by rewrite IH.
Qed.

(** The total count [accuracy] returns depends on the labels only. *)
Lemma accuracy_total `{Float32Sum} (predictions truth : tensor2 Z)
    (ignore_idx : Z) (r : pynum * pynum) :
  accuracy predictions truth ignore_idx = Ok r ->
  same_shape predictions truth = true
  /\ fst r = PInt (Z.of_nat (shape0 truth) * Z.of_nat (shape1 truth)
                   - Z.of_nat (length (List.filter (is_ignored ignore_idx)
                                                   (data truth)))).
Proof.
  destruct predictions as [r0 c0 dp], truth as [r' c' dt].
  unfold accuracy, t_ne, setitem_mask, getitem_mask, t_eq_scalar, ones,
    same_shape, t_sum_item.
  change (fun x : Z => Z.eqb x ignore_idx) with (is_ignored ignore_idx).
  cbn [shape0 shape1 data].
  destruct (Nat.eqb r0 r' && Nat.eqb c0 c') eqn:Hshape.
  - apply andb_true_iff in Hshape as [Hr Hc].
    apply Nat.eqb_eq in Hr, Hc. subst r' c'.
    repeat (cbn [shape0 shape1 data and_then andb]; rewrite ?Nat.eqb_refl).
    cbn [num_mul num_sub to_Q]. rewrite selected_length.
    intros [= <-]. by split.
  - destruct (dim_compatible r0 r' && dim_compatible c0 c'); [|discriminate].
    cbn [and_then shape0 shape1 data].
    destruct (Nat.eqb r0 (broadcast_dim r0 r') && Nat.eqb c0 (broadcast_dim c0 c'));
      [|discriminate].
    cbn [and_then shape0 shape1 data]. rewrite Hshape. discriminate.
Qed.

Section MeasureAccuracyMore.
Context `{TorchAPI}.
Context `{Float32Sum}.
Variables (batch_x score : Type).
Variable gtb : score -> score -> bool.
Variable valid_device : string -> bool.
Variable network : batch_x -> M (tensor3 score).
Variable device : string.

(** A batch sequence that is processed without an exception: what each
    step of the first batch did. *)
Lemma batch_counts_cons_inv (x_batch : batch_x) (y_batch : tensor2 Z)
    (rest : list (batch_x * tensor2 Z)) (s s' : pystate)
    (rs : list (pynum * pynum)) :
  batch_counts batch_x score gtb valid_device network
               ((x_batch, y_batch) :: rest) device s = (Ret rs, s') ->
  exists (pred : tensor3 score) (s1 : pystate) (predictions : tensor2 Z)
         (r : pynum * pynum) (rs' : list (pynum * pynum)),
    valid_device device = true
    /\ network x_batch s = (Ret pred, s1)
    /\ argmax_last score gtb pred = Ok predictions
    /\ accuracy predictions y_batch 0 = Ok r
    /\ batch_counts batch_x score gtb valid_device network rest device s1
       = (Ret rs', s')
    /\ rs = r :: rs'.
Proof.
  cbn [batch_counts]. unfold bind, lift, ret, raise, to_device.
  destruct (valid_device device); [|done].
  destruct (network x_batch s) as [[pred| |] s1]; [|done..].
  destruct (argmax_last score gtb pred) as [predictions|] eqn:Harg; [|done].
  destruct (accuracy predictions y_batch 0) as [r|] eqn:Hacc; [|done].
  destruct (batch_counts _ _ _ _ _ rest device s1) as [[rs'| |] s2] eqn:Hrest;
    [|done..].
  intros [= <- <-]. by exists pred, s1, predictions, r, rs'.
Qed.

Lemma batch_counts_cons (x_batch : batch_x) (y_batch : tensor2 Z)
    (rest : list (batch_x * tensor2 Z)) (s s1 s' : pystate)
    (pred : tensor3 score) (predictions : tensor2 Z)
    (r : pynum * pynum) (rs' : list (pynum * pynum)) :
  valid_device device = true ->
  network x_batch s = (Ret pred, s1) ->
  argmax_last score gtb pred = Ok predictions ->
  accuracy predictions y_batch 0 = Ok r ->
  batch_counts batch_x score gtb valid_device network rest device s1
  = (Ret rs', s') ->
  batch_counts batch_x score gtb valid_device network
               ((x_batch, y_batch) :: rest) device s = (Ret (r :: rs'), s').
Proof.
  intros Hdev Hnet Harg Hacc Hrest.
  cbn [batch_counts]. unfold bind, lift, ret, raise, to_device.
  by rewrite Hdev, Hnet, Harg, Hacc, Hrest.
Qed.

(** A property of every count pair [accuracy] returns for a batch of the
    dataloader holds of all the pairs gathered. *)
Lemma batch_counts_Forall (P : pynum * pynum -> Prop)
    (dataloader : list (batch_x * tensor2 Z)) :
  (forall x_batch y_batch s pred s1 predictions r,
      In (x_batch, y_batch) dataloader ->
      network x_batch s = (Ret pred, s1) ->
      argmax_last score gtb pred = Ok predictions ->
      accuracy predictions y_batch 0 = Ok r -> P r) ->
  forall (s s' : pystate) (rs : list (pynum * pynum)),
    batch_counts batch_x score gtb valid_device network dataloader device s
    = (Ret rs, s') ->
    Forall P rs.
Proof.
  induction dataloader as [|[x_batch y_batch] rest IH]; intros HP s s' rs.
  - cbn. intros [= <- <-]. constructor.
  - intros Hrun.
    apply batch_counts_cons_inv in Hrun
      as (pred & s1 & predictions & r & rs' & _ & Hnet & Harg & Hacc & Hrest & ->).
    constructor.
    + eapply HP; [left; reflexivity|eassumption..].
    + eapply IH; [|exact Hrest].
      intros ? ? ? ? ? ? ? Hin. eapply HP. right. exact Hin.
Qed.

(** When the loop returns, every batch was processed without an
    exception. *)
Lemma measure_loop_inv (dataloader : list (batch_x * tensor2 Z))
    (correct total correct' total' : pynum) (s s' : pystate) :
  measure_loop batch_x score gtb valid_device network dataloader device
               correct total s = (Ret (correct', total'), s') ->
  exists rs : list (pynum * pynum),
    batch_counts batch_x score gtb valid_device network dataloader device s
    = (Ret rs, s').
Proof.
  revert correct total s.
  induction dataloader as [|[x_batch y_batch] rest IH]; intros correct total s.
  - cbn. intros [= <- <- <-]. by exists [].
  - cbn [measure_loop batch_counts]. unfold bind, lift, ret, raise.
    destruct (to_device valid_device x_batch device) as [x|]; [|done].
    destruct (network x s) as [[pred| |] s1]; [|done..].
    destruct (argmax_last score gtb pred) as [predictions|]; [|done].
    destruct (to_device valid_device y_batch device) as [truth|]; [|done].
    destruct (accuracy predictions truth 0) as [[local_total local_correct]|]; [|done].
    intros Hloop. apply IH in Hloop as [rs' Hrest]. rewrite Hrest.
    by eexists.
Qed.

(** A batch that raises ends the loop with its exception. *)
Lemma measure_loop_raise (done_ rest : list (batch_x * tensor2 Z))
    (b : batch_x * tensor2 Z) (correct total : pynum) (s s1 s2 : pystate)
    (rs : list (pynum * pynum)) (e : exn) :
  batch_counts batch_x score gtb valid_device network done_ device s
  = (Ret rs, s1) ->
  batch_counts batch_x score gtb valid_device network [b] device s1
  = (Raise e, s2) ->
  measure_loop batch_x score gtb valid_device network (done_ ++ b :: rest)
               device correct total s = (Raise e, s2).
Proof.
  revert correct total s rs.
  induction done_ as [|[x_batch y_batch] done_ IH]; intros correct total s rs.
  - cbn [batch_counts app]. intros [= <- <-]. destruct b as [x_batch y_batch].
    cbn [measure_loop batch_counts]. unfold bind, lift, ret, raise.
    destruct (to_device valid_device x_batch device) as [x|];
      [|by intros [= -> ->]].
    destruct (network x s) as [[pred| |] s1']; [|by intros [= -> ->]|done].
    destruct (argmax_last score gtb pred) as [predictions|];
      [|by intros [= -> ->]].
    destruct (to_device valid_device y_batch device) as [truth|];
      [|by intros [= -> ->]].
    destruct (accuracy predictions truth 0) as [[local_total local_correct]|];
      [done|by intros [= -> ->]].
  - cbn [measure_loop batch_counts app]. unfold bind, lift, ret, raise.
    destruct (to_device valid_device x_batch device) as [x|]; [|done].
    destruct (network x s) as [[pred| |] s1']; [|done..].
    destruct (argmax_last score gtb pred) as [predictions|]; [|done].
    destruct (to_device valid_device y_batch device) as [truth|]; [|done].
    destruct (accuracy predictions truth 0) as [[local_total local_correct]|]; [|done].
    destruct (batch_counts _ _ _ _ _ done_ device s1') as [[rs'| |] s2'] eqn:Hdone;
      [|done..].
    intros [= <- <-] Hb. by eapply IH.
Qed.
End MeasureAccuracyMore.

Section MeasureAccuracyRuns.
Context `{TorchAPI}.
Context `{Float32Sum}.
Variables (batch_x score : Type).
Variable gtb : score -> score -> bool.
Variable valid_device : string -> bool.
Variable network : batch_x -> M (tensor3 score).
Variable device : string.

(** The division [measure_accuracy] ends with, when every batch is
    processed without an exception. *)
Lemma measure_accuracy_of_counts (dataloader : list (batch_x * tensor2 Z))
    (s s' : pystate) (rs : list (pynum * pynum)) :
  batch_counts batch_x score gtb valid_device network dataloader device s
  = (Ret rs, s') ->
  exists correct total : pynum,
    measure_accuracy batch_x score gtb valid_device network dataloader device s
    = (outcome_of (num_truediv correct total), s')
    /\ (to_Q correct == sum_corrects rs)%Q
    /\ (to_Q total == sum_totals rs)%Q.
Proof.
  intros Hcounts.
  destruct (measure_loop_sums batch_x score gtb valid_device network device
              dataloader (PInt 0) (PInt 0) s s' rs Hcounts)
    as (correct & total & Hloop & Hcorrect & Htotal).
  exists correct, total. unfold measure_accuracy, bind. rewrite Hloop.
  change (to_Q (PInt 0)) with 0%Q in *.
  rewrite Qplus_0_l in Hcorrect, Htotal.
  split; [|by split]. by destruct (num_truediv correct total).
Qed.

(** What a returned value of [measure_accuracy] is. *)
Lemma measure_accuracy_inv (dataloader : list (batch_x * tensor2 Z))
    (s s' : pystate) (v : pynum) :
  measure_accuracy batch_x score gtb valid_device network dataloader device s
  = (Ret v, s') ->
  exists (rs : list (pynum * pynum)) (q : Q),
    batch_counts batch_x score gtb valid_device network dataloader device s
    = (Ret rs, s')
    /\ v = PFloat q
    /\ ~ (sum_totals rs == 0)%Q
    /\ (q == sum_corrects rs / sum_totals rs)%Q.
Proof.
  intros Hrun.
  assert (exists rs, batch_counts batch_x score gtb valid_device network
                                  dataloader device s = (Ret rs, s'))
    as [rs Hcounts].
  { revert Hrun. unfold measure_accuracy, bind.
    destruct (measure_loop _ _ _ _ _ dataloader device (PInt 0) (PInt 0) s)
      as [[[correct total]| |] s1] eqn:Hloop; [|done..].
    intros Hdiv. apply measure_loop_inv in Hloop as [rs Hcounts].
    exists rs. rewrite Hcounts. f_equal.
    revert Hdiv. unfold lift, num_truediv.
    by destruct (Qeq_bool (to_Q total) 0); intros [= _ ->]. }
  destruct (measure_accuracy_of_counts dataloader s s' rs Hcounts)
    as (correct & total & Hrun' & Hcorrect & Htotal).
  rewrite Hrun in Hrun'. revert Hrun'. unfold num_truediv.
  destruct (Qeq_bool (to_Q total) 0) eqn:Hzero; [done|].
  cbn [outcome_of]. intros [= ->].
  exists rs, (to_Q correct / to_Q total)%Q. split; [done|]. split; [done|].
  split.
  - intros Hsum. apply Qeq_bool_neq in Hzero. apply Hzero. by rewrite Htotal.
  - by rewrite Hcorrect, Htotal.
Qed.
End MeasureAccuracyRuns.

(** X5: when a batch raises (the network call, the argmax, or [accuracy] on
    labels of another shape), [measure_accuracy] ends with that exception in
    the state the failing batch left: the counts of the batches before it
    are dropped and the batches after it are never processed. *)
Theorem measure_accuracy_raises_at_first_failing_batch `{TorchAPI} `{Float32Sum}
    (batch_x score : Type) (gtb : score -> score -> bool)
    (valid_device : string -> bool) (network : batch_x -> M (tensor3 score))
    (device : string) (done_ rest : list (batch_x * tensor2 Z))
    (b : batch_x * tensor2 Z) (s s1 s2 : pystate)
    (rs : list (pynum * pynum)) (e : exn) :
  batch_counts batch_x score gtb valid_device network done_ device s
  = (Ret rs, s1) ->
  batch_counts batch_x score gtb valid_device network [b] device s1
  = (Raise e, s2) ->
  measure_accuracy batch_x score gtb valid_device network (done_ ++ b :: rest)
                   device s
  = (Raise e, s2).
Proof.
  intros Hdone Hb. unfold measure_accuracy, bind.
  by rewrite (measure_loop_raise batch_x score gtb valid_device network device
                done_ rest b (PInt 0) (PInt 0) s s1 s2 rs e Hdone Hb).
Qed.

(** X5, witness: a good batch, then a batch whose labels have shape (1, 2)
    against predictions of shape (1, 1), then a good batch. *)
Lemma measure_accuracy_raises_at_first_failing_batch_witness :
  measure_accuracy (tensor3 Z) Z Z.gtb Toy.cpu_only Toy.echo_network
    ([(mkT3 1 1 2 [[0; 1]], mkT2 1 1 [1])]
     ++ (mkT3 1 1 2 [[0; 1]], mkT2 1 2 [1; 1])
     :: [(mkT3 1 1 2 [[1; 0]], mkT2 1 1 [1])])
    "cpu" (Toy.state_without_X 0)
  = (Raise IndexError, Toy.state_without_X 0).
Proof.
  exact (measure_accuracy_raises_at_first_failing_batch (tensor3 Z) Z Z.gtb
           Toy.cpu_only Toy.echo_network "cpu"
           [(mkT3 1 1 2 [[0; 1]], mkT2 1 1 [1])]
           [(mkT3 1 1 2 [[1; 0]], mkT2 1 1 [1])]
           (mkT3 1 1 2 [[0; 1]], mkT2 1 2 [1; 1])
           (Toy.state_without_X 0) (Toy.state_without_X 0) (Toy.state_without_X 0)
           [(PInt 1, PFloat 1)] IndexError eq_refl eq_refl).
Defined.

(** X6: with a device torch does not know, [measure_accuracy] on a
    non-empty dataloader raises [RuntimeError] when it moves the first batch,
    before the network is called; on an empty dataloader no tensor is moved
    and the call raises [ZeroDivisionError] as with any device. *)
Theorem measure_accuracy_unknown_device `{TorchAPI} `{Float32Sum}
    (batch_x score : Type) (gtb : score -> score -> bool)
    (valid_device : string -> bool) (network : batch_x -> M (tensor3 score))
    (device : string) (b : batch_x * tensor2 Z)
    (rest : list (batch_x * tensor2 Z)) (s : pystate) :
  valid_device device = false ->
  measure_accuracy batch_x score gtb valid_device network (b :: rest) device s
  = (Raise RuntimeError, s)
  /\ measure_accuracy batch_x score gtb valid_device network [] device s
     = (Raise ZeroDivisionError, s).
Proof.
  intros Hdev. split; [|reflexivity]. destruct b as [x_batch y_batch].
  unfold measure_accuracy. cbn [measure_loop].
  unfold bind, lift, to_device. by rewrite Hdev.
Qed.

(** X6, witness: the device "cuda" where only "cpu" is known. *)
Lemma measure_accuracy_unknown_device_witness :
  measure_accuracy (tensor3 Z) Z Z.gtb Toy.cpu_only Toy.echo_network
                   Toy.two_batches "cuda" (Toy.state_without_X 0)
  = (Raise RuntimeError, Toy.state_without_X 0)
  /\ measure_accuracy (tensor3 Z) Z Z.gtb Toy.cpu_only Toy.echo_network
                      [] "cuda" (Toy.state_without_X 0)
     = (Raise ZeroDivisionError, Toy.state_without_X 0).
Proof.
  exact (measure_accuracy_unknown_device (tensor3 Z) Z Z.gtb Toy.cpu_only
           Toy.echo_network "cuda" (mkT3 1 1 2 [[0; 1]], mkT2 1 1 [1])
           [(mkT3 3 1 2 [[1; 0]; [1; 0]; [1; 0]], mkT2 3 1 [1; 1; 1])]
           (Toy.state_without_X 0) eq_refl).
Defined.

(** X7: when every label of every batch is the padding value 0, every batch
    that is processed counts no token and [measure_accuracy] raises
    [ZeroDivisionError]; it returns neither 0 nor 1. *)
Theorem measure_accuracy_all_padding_raises `{TorchAPI} `{Float32Sum}
    (batch_x score : Type) (gtb : score -> score -> bool)
    (valid_device : string -> bool) (network : batch_x -> M (tensor3 score))
    (device : string) (dataloader : list (batch_x * tensor2 Z))
    (s s' : pystate) (rs : list (pynum * pynum)) :
  Forall (fun b => wf2 (snd b) /\ Forall (fun y => y = 0) (data (snd b)))
         dataloader ->
  batch_counts batch_x score gtb valid_device network dataloader device s
  = (Ret rs, s') ->
  measure_accuracy batch_x score gtb valid_device network dataloader device s
  = (Raise ZeroDivisionError, s').
Proof.
  intros Hpad Hcounts.
  assert (Forall (fun r => (to_Q (fst r) == 0)%Q) rs) as Hzero.
  { eapply batch_counts_Forall; [|exact Hcounts].
    intros x_batch y_batch s0 pred s1 predictions r Hin _ _ Hacc.
    destruct (proj1 (List.Forall_forall _ _) Hpad _ Hin) as [Hwf Hall].
    apply accuracy_total in Hacc as [_ ->]. cbn [snd] in *.
    unfold wf2 in Hwf. cbn [to_Q].
    assert (List.filter (is_ignored 0) (data y_batch) = data y_batch) as ->.
    { clear Hwf. induction Hall as [|y l Hy _ IH]; [done|].
      cbn [List.filter]. unfold is_ignored at 1. subst y. cbn. by rewrite IH. }
    rewrite Hwf. replace (_ - _) with 0 by lia. reflexivity. }
  destruct (measure_accuracy_of_counts batch_x score gtb valid_device network
              device dataloader s s' rs Hcounts)
    as (correct & total & -> & _ & Htotal).
  assert (sum_totals rs == 0)%Q as Hsum.
  { unfold sum_totals, sum_Q. clear -Hzero.
    induction Hzero as [|r l Hr _ IH]; [reflexivity|].
    cbn [map fold_right]. rewrite Hr, IH. reflexivity. }
  unfold num_truediv.
  assert (Qeq_bool (to_Q total) 0 = true) as ->; [|reflexivity].
  apply Qeq_bool_iff. by rewrite Htotal.
Qed.

(** X7, witness: one batch of two tokens, both labelled 0. *)
Lemma measure_accuracy_all_padding_raises_witness :
  measure_accuracy (tensor3 Z) Z Z.gtb Toy.cpu_only Toy.echo_network
                   [(mkT3 1 2 2 [[0; 1]; [1; 0]], mkT2 1 2 [0; 0])]
                   "cpu" (Toy.state_without_X 0)
  = (Raise ZeroDivisionError, Toy.state_without_X 0).
Proof.
  refine (measure_accuracy_all_padding_raises (tensor3 Z) Z Z.gtb Toy.cpu_only
            Toy.echo_network "cpu"
            [(mkT3 1 2 2 [[0; 1]; [1; 0]], mkT2 1 2 [0; 0])]
            (Toy.state_without_X 0) (Toy.state_without_X 0)
            [(PInt 0, PFloat 0)] _ eq_refl).
  repeat constructor.
Defined.

Section MeasureAccuracyOrder.
Context `{TorchAPI}.
Context `{Float32Sum}.
Variables (batch_x score : Type).
Variable gtb : score -> score -> bool.
Variable valid_device : string -> bool.
Variable network : batch_x -> M (tensor3 score).
Variable device : string.

(** The network reads and writes no interpreter state. *)
Variable f : batch_x -> outcome (tensor3 score).
Hypothesis network_pure : forall x s, network x s = (f x, s).

Lemma batch_counts_perm (dataloader dataloader' : list (batch_x * tensor2 Z)) :
  Permutation dataloader dataloader' ->
  forall (s s' : pystate) (rs : list (pynum * pynum)),
    batch_counts batch_x score gtb valid_device network dataloader device s
    = (Ret rs, s') ->
    exists rs' : list (pynum * pynum),
      batch_counts batch_x score gtb valid_device network dataloader' device s
      = (Ret rs', s')
      /\ Permutation rs rs'.
Proof.
  induction 1 as [|[x y] l l' _ IH|[x y] [x' y'] l|l l' l'' _ IH _ IH'];
    intros s s' rs Hrun.
  - by exists rs.
  - apply batch_counts_cons_inv in Hrun
      as (pred & s1 & p & r & rs1 & Hdev & Hnet & Harg & Hacc & Hrest & ->).
    destruct (IH _ _ _ Hrest) as (rs1' & Hrest' & Hperm).
    exists (r :: rs1'). split; [|by constructor].
    by eapply batch_counts_cons.
  - apply batch_counts_cons_inv in Hrun
      as (pred & s1 & p & r & rs1 & Hdev & Hnet & Harg & Hacc & Hrest & ->).
    apply batch_counts_cons_inv in Hrest
      as (pred' & s2 & p' & r' & rs2 & _ & Hnet' & Harg' & Hacc' & Hrest & ->).
    rewrite network_pure in Hnet, Hnet'.
    injection Hnet as Hf <-. injection Hnet' as Hf' <-.
    exists (r' :: r :: rs2). split; [|apply perm_swap].
    eapply batch_counts_cons; [done|by rewrite network_pure, Hf'|done..|].
    eapply batch_counts_cons; [done|by rewrite network_pure, Hf|done..].
  - destruct (IH _ _ _ Hrun) as (rs1 & Hrun1 & Hperm1).
    destruct (IH' _ _ _ Hrun1) as (rs2 & Hrun2 & Hperm2).
    exists rs2. split; [done|]. by etransitivity.
Qed.
End MeasureAccuracyOrder.

Lemma sum_counts_ordered (rs : list (pynum * pynum)) :
  Forall (fun r => (0 <= to_Q (snd r))%Q /\ (to_Q (snd r) <= to_Q (fst r))%Q) rs ->
  (0 <= sum_corrects rs)%Q /\ (sum_corrects rs <= sum_totals rs)%Q.
Proof.
  unfold sum_corrects, sum_totals, sum_Q.
  induction 1 as [|r l [Hr0 Hr1] _ [IH0 IH1]]; cbn [map fold_right].
  - split; apply Qle_refl.
  - split.
    + change 0%Q with (0 + 0)%Q. by apply Qplus_le_compat.
    + by apply Qplus_le_compat.
Qed.

(** X8: on well-formed tensors of at most 2^24 positions per batch a value
    [measure_accuracy] returns is a float between 0 and 1. *)
Theorem measure_accuracy_between_0_and_1 `{TorchAPI} `{Float32Sum}
    (batch_x score : Type) (gtb : score -> score -> bool)
    (valid_device : string -> bool) (network : batch_x -> M (tensor3 score))
    (device : string) (dataloader : list (batch_x * tensor2 Z))
    (s s' : pystate) (v : pynum) :
  Forall (fun b => wf2 (snd b)
                   /\ Z.of_nat (shape0 (snd b) * shape1 (snd b)) <= 2 ^ 24)
         dataloader ->
  (forall x_batch y_batch s0 pred s1,
      In (x_batch, y_batch) dataloader ->
      network x_batch s0 = (Ret pred, s1) ->
      length (vectors pred) = (dim0 pred * dim1 pred)%nat) ->
  measure_accuracy batch_x score gtb valid_device network dataloader device s
  = (Ret v, s') ->
  exists q : Q, v = PFloat q /\ (0 <= q)%Q /\ (q <= 1)%Q.
Proof.
  intros Hlabels Hnet Hrun.
  apply measure_accuracy_inv in Hrun as (rs & q & Hcounts & -> & Hnonzero & Hq).
  exists q. split; [reflexivity|].
  assert (Forall (fun r => (0 <= to_Q (snd r))%Q
                           /\ (to_Q (snd r) <= to_Q (fst r))%Q) rs) as Hrs.
  { eapply batch_counts_Forall; [|exact Hcounts].
    intros x_batch y_batch s0 pred s1 predictions r Hin Hpred Harg Hacc.
    destruct (proj1 (List.Forall_forall _ _) Hlabels _ Hin) as [Hwf Hsize].
    specialize (Hnet _ _ _ _ _ Hin Hpred).
    unfold argmax_last in Harg.
    destruct (Nat.eqb (dim2 pred) 0); [discriminate|].
    injection Harg as <-.
    destruct (accuracy_total _ _ _ _ Hacc) as [Hshape _].
    destruct y_batch as [r' c' dt]. unfold wf2, same_shape in *.
    cbn [shape0 shape1 data snd] in *.
    apply andb_true_iff in Hshape as [Hr Hc].
    apply Nat.eqb_eq in Hr, Hc. subst r' c'.
    destruct (accuracy_run (dim0 pred) (dim1 pred)
                (map (argmax_vector score gtb) (vectors pred)) dt 0)
      as (q0 & Hrun0 & Hq0); [by rewrite length_map|done|done|].
    rewrite Hrun0 in Hacc. injection Hacc as <-. cbn [fst snd to_Q].
    rewrite Hq0. rewrite <- !Zle_Qle.
    pose proof (correct_le_not_ignored 0
                  (map (argmax_vector score gtb) (vectors pred)) dt).
    change 0%Q with (inject_Z 0). rewrite <- Zle_Qle. lia. }
  apply sum_counts_ordered in Hrs as [Hc0 Hct].
  assert (0 < sum_totals rs)%Q as Hpos.
  { apply Qle_lteq in Hc0. apply Qle_lteq in Hct.
    destruct (Qlt_le_dec 0 (sum_totals rs)) as [|Hle]; [done|].
    exfalso. apply Hnonzero. apply Qle_antisym; [done|].
    eapply Qle_trans; [|apply Qle_lteq; exact Hct]. apply Qle_lteq. exact Hc0. }
  rewrite Hq. split.
  - apply Qle_shift_div_l; [done|]. by rewrite Qmult_0_l.
  - apply Qle_shift_div_r; [done|]. by rewrite Qmult_1_l.
Qed.

(** X8, witness: the two batches, one of four tokens tagged correctly. *)
Lemma measure_accuracy_between_0_and_1_witness :
  measure_accuracy (tensor3 Z) Z Z.gtb Toy.cpu_only Toy.echo_network
                   Toy.two_batches "cpu" (Toy.state_without_X 0)
  = (Ret (PFloat (1 # 4)), Toy.state_without_X 0)
  /\ exists q : Q, PFloat (1 # 4) = PFloat q /\ (0 <= q)%Q /\ (q <= 1)%Q.
Proof.
  split; [reflexivity|].
  refine (measure_accuracy_between_0_and_1 (tensor3 Z) Z Z.gtb Toy.cpu_only
            Toy.echo_network "cpu" Toy.two_batches
            (Toy.state_without_X 0) (Toy.state_without_X 0) (PFloat (1 # 4))
            _ _ eq_refl).
  - repeat constructor; cbn; apply (Zle_bool_imp_le _ (2 ^ 24)); reflexivity.
  - intros x_batch y_batch s0 pred s1 [[= <- <-]|[[= <- <-]|[]]] [= <-];
      reflexivity.
Defined.

(** X9: for a network that reads and writes no interpreter state, the value
    [measure_accuracy] returns does not depend on the order in which the
    dataloader yields the batches. *)
Theorem measure_accuracy_batch_order_irrelevant `{TorchAPI} `{Float32Sum}
    (batch_x score : Type) (gtb : score -> score -> bool)
    (valid_device : string -> bool) (network : batch_x -> M (tensor3 score))
    (f : batch_x -> outcome (tensor3 score)) (device : string)
    (dataloader dataloader' : list (batch_x * tensor2 Z))
    (s s' : pystate) (v : pynum) :
  (forall x s0, network x s0 = (f x, s0)) ->
  Permutation dataloader dataloader' ->
  measure_accuracy batch_x score gtb valid_device network dataloader device s
  = (Ret v, s') ->
  exists v' : pynum,
    measure_accuracy batch_x score gtb valid_device network dataloader' device s
    = (Ret v', s')
    /\ (to_Q v == to_Q v')%Q.
Proof.
  intros Hpure Hperm Hrun.
  apply measure_accuracy_inv in Hrun as (rs & q & Hcounts & -> & Hnonzero & Hq).
  destruct (batch_counts_perm batch_x score gtb valid_device network device f
              Hpure dataloader dataloader' Hperm s s' rs Hcounts)
    as (rs' & Hcounts' & Hrs).
  assert (sum_totals rs == sum_totals rs')%Q as Htotals.
  { unfold sum_totals. apply sum_Q_perm. by apply Permutation_map. }
  assert (sum_corrects rs == sum_corrects rs')%Q as Hcorrects.
  { unfold sum_corrects. apply sum_Q_perm. by apply Permutation_map. }
  destruct (measure_accuracy_of_counts batch_x score gtb valid_device network
              device dataloader' s s' rs' Hcounts')
    as (correct & total & -> & Hcorrect & Htotal).
  unfold num_truediv.
  destruct (Qeq_bool (to_Q total) 0) eqn:Hzero.
  - exfalso. apply Hnonzero. apply Qeq_bool_iff in Hzero.
    by rewrite Htotals, <- Htotal.
  - eexists. split; [reflexivity|]. cbn [to_Q].
    by rewrite Hq, Hcorrect, Htotal, Hcorrects, Htotals.
Qed.

(** X9, witness: the two batches in either order. *)
Lemma measure_accuracy_batch_order_irrelevant_witness :
  exists v' : pynum,
    measure_accuracy (tensor3 Z) Z Z.gtb Toy.cpu_only Toy.echo_network
      [ (mkT3 3 1 2 [[1; 0]; [1; 0]; [1; 0]], mkT2 3 1 [1; 1; 1]);
        (mkT3 1 1 2 [[0; 1]], mkT2 1 1 [1]) ]
      "cpu" (Toy.state_without_X 0)
    = (Ret v', Toy.state_without_X 0)
    /\ (1 # 4 == to_Q v')%Q.
Proof.
  refine (measure_accuracy_batch_order_irrelevant (tensor3 Z) Z Z.gtb
            Toy.cpu_only Toy.echo_network (fun x => Ret x) "cpu"
            Toy.two_batches
            [ (mkT3 3 1 2 [[1; 0]; [1; 0]; [1; 0]], mkT2 3 1 [1; 1; 1]);
              (mkT3 1 1 2 [[0; 1]], mkT2 1 1 [1]) ]
            (Toy.state_without_X 0) (Toy.state_without_X 0) (PFloat (1 # 4))
            _ _ eq_refl).
  - reflexivity.
  - apply perm_swap.
Defined.

(** ** The tag-encoding cell *)

Lemma encode_sequence_Found (pos_to_int : gmap string Z)
    (pos_sequence : list string) (ns : list Z) :
  encode_sequence pos_to_int pos_sequence = Found ns
  <-> Forall2 (fun pos n => pos_to_int !! pos = Some n) pos_sequence ns.
Proof.
  revert ns. induction pos_sequence as [|pos rest IH]; intros ns; cbn.
  - split; [intros [= <-]; constructor|]. by inversion 1.
  - destruct (pos_to_int !! pos) as [n|] eqn:Hpos.
    + destruct (encode_sequence pos_to_int rest) as [ns'|key].
      * split.
        -- intros [= <-]. constructor; [done|]. by apply IH.
        -- inversion 1 as [|? n' ? ns'' Hn Hrest]; subst.
           apply IH in Hrest as [= ->]. congruence.
      * split; [done|]. inversion 1 as [|? n' ? ns'' Hn Hrest]; subst.
        by apply IH in Hrest.
    + split; [done|]. inversion 1; congruence.
Qed.

Lemma encode_sequence_app (pos_to_int : gmap string Z) (l1 l2 : list string) :
  encode_sequence pos_to_int (l1 ++ l2)
  = match encode_sequence pos_to_int l1 with
    | KeyError key => KeyError key
    | Found ns1 =>
        match encode_sequence pos_to_int l2 with
        | KeyError key => KeyError key
        | Found ns2 => Found (ns1 ++ ns2)
        end
    end.
Proof.
  induction l1 as [|pos l1 IH]; cbn.
  - by destruct (encode_sequence pos_to_int l2).
  - destruct (pos_to_int !! pos); [|done]. rewrite IH.
    destruct (encode_sequence pos_to_int l1); [|done].
    by destruct (encode_sequence pos_to_int l2).
Qed.

(** The sentences fail with the key the flat tag sequence fails with. *)
Lemma pos_numeric_KeyError_concat (pos_to_int : gmap string Z)
    (postags : list (list string)) (key : string) :
  pos_numeric pos_to_int postags = KeyError key
  <-> encode_sequence pos_to_int (concat postags) = KeyError key.
Proof.
  induction postags as [|l postags IH]; cbn [pos_numeric concat].
  - split; discriminate.
  - rewrite encode_sequence_app.
    destruct (encode_sequence pos_to_int l) as [ns|key'];
      [|by split; intros [= ->]].
    destruct (pos_numeric pos_to_int postags) as [nss|key'],
      (encode_sequence pos_to_int (concat postags)) as [ns'|key''];
      try exact IH; split; intros Heq; try discriminate;
      apply IH in Heq; discriminate.
Qed.

Lemma encode_sequence_KeyError (pos_to_int : gmap string Z)
    (l : list string) (key : string) :
  encode_sequence pos_to_int l = KeyError key
  <-> exists pre post : list string,
        l = pre ++ key :: post
        /\ Forall (fun pos => is_Some (pos_to_int !! pos)) pre
        /\ pos_to_int !! key = None.
Proof.
  induction l as [|pos l IH]; cbn.
  - split; [done|]. intros (pre & post & Heq & _). by destruct pre.
  - destruct (pos_to_int !! pos) as [n|] eqn:Hpos.
    + destruct (encode_sequence pos_to_int l) as [ns|key'].
      * split; [done|]. intros (pre & post & Heq & Hpre & Hkey).
        destruct pre as [|p pre]; injection Heq as -> ->; [congruence|].
        inversion Hpre; subst.
        assert (Found ns = KeyError key) as Habs; [|done].
        apply IH. by exists pre, post.
      * split.
        -- intros [= ->]. destruct (proj1 IH eq_refl) as (pre & post & -> & Hpre & Hkey).
           exists (pos :: pre), post. repeat split; [|done].
           constructor; [by rewrite Hpos|done].
        -- intros (pre & post & Heq & Hpre & Hkey).
           destruct pre as [|p pre]; injection Heq as -> ->; [congruence|].
           inversion Hpre; subst. apply IH. by exists pre, post.
    + split.
      * intros [= ->]. exists [], l. by repeat split.
      * intros (pre & post & Heq & Hpre & Hkey).
        destruct pre as [|p pre]; injection Heq as -> ->; [done|].
        inversion Hpre as [|? ? [? Hsome] ?]; subst. congruence.
Qed.

(** The numbers the cell returns are, sentence by sentence and tag by tag,
    the values stored under the tags. *)
Lemma pos_numeric_Forall2 (pos_to_int : gmap string Z)
    (postags : list (list string)) (nss : list (list Z)) :
  pos_numeric pos_to_int postags = Found nss
  <-> Forall2 (Forall2 (fun pos n => pos_to_int !! pos = Some n)) postags nss.
Proof.
  revert nss. induction postags as [|l postags IH]; intros nss; cbn.
  - split; [intros [= <-]; constructor|]. by inversion 1.
  - destruct (encode_sequence pos_to_int l) as [ns|key] eqn:Hl.
    + apply encode_sequence_Found in Hl.
      destruct (pos_numeric pos_to_int postags) as [nss'|key].
      * split.
        -- intros [= <-]. constructor; [done|]. by apply IH.
        -- inversion 1 as [|? ns' ? nss'' Hns Hrest]; subst.
           apply IH in Hrest as [= ->]. apply encode_sequence_Found in Hns.
           apply encode_sequence_Found in Hl. congruence.
      * split; [done|]. inversion 1 as [|? ns' ? nss'' Hns Hrest]; subst.
        by apply IH in Hrest.
    + split; [done|]. inversion 1 as [|? ns' ? nss'' Hns Hrest]; subst.
      apply encode_sequence_Found in Hns. congruence.
Qed.

Lemma encode_sequence_known (pos_to_int : gmap string Z) (l : list string) :
  Forall (fun pos => is_Some (pos_to_int !! pos)) l ->
  exists ns : list Z, encode_sequence pos_to_int l = Found ns.
Proof.
  induction 1 as [|pos l [n Hpos] _ [ns IH]]; cbn.
  - by exists [].
  - rewrite Hpos, IH. by eexists.
Qed.

(** X10: the cell succeeds exactly when every tag of every sentence is a
    key of [pos_to_int]; the numbers it then returns are, sentence by
    sentence and tag by tag, the values stored under the tags, so there are
    as many number sequences as sentences and each is as long as its
    sentence. *)
Theorem pos_numeric_Found_iff (pos_to_int : gmap string Z)
    (postags : list (list string)) :
  ((exists nss, pos_numeric pos_to_int postags = Found nss)
   <-> Forall (Forall (fun pos => is_Some (pos_to_int !! pos))) postags)
  /\ forall nss : list (list Z),
       (pos_numeric pos_to_int postags = Found nss
        <-> Forall2 (Forall2 (fun pos n => pos_to_int !! pos = Some n))
                    postags nss)
       /\ (pos_numeric pos_to_int postags = Found nss ->
           length nss = length postags
           /\ Forall2 (fun l ns => length ns = length l) postags nss).
Proof.
  split; [split|].
  - intros [nss Hrun]. apply pos_numeric_Forall2 in Hrun.
    induction Hrun as [|l ns postags nss Hl _ IH]; constructor; [|done].
    induction Hl as [|pos n l ns Hpos _ IHl]; constructor; [by eexists|done].
  - induction 1 as [|l postags Hl _ [nss IH]]; cbn.
    + by exists [].
    + destruct (encode_sequence_known pos_to_int l Hl) as [ns ->].
      rewrite IH. by eexists.
  - intros nss. split; [apply pos_numeric_Forall2|].
    intros Hrun. apply pos_numeric_Forall2 in Hrun.
    induction Hrun as [|l ns postags nss Hl _ [IHlen IH]]; [by split|].
    split; [cbn; by rewrite IHlen|]. constructor; [|done].
    clear -Hl. induction Hl as [|pos n l ns _ _ IHl]; [done|].
    cbn. by rewrite IHl.
Qed.

(** X11: the cell raises [KeyError] for a key exactly when that key is the
    first tag, in reading order over all sentences, that is not in
    [pos_to_int]. *)
Theorem pos_numeric_KeyError_iff (pos_to_int : gmap string Z)
    (postags : list (list string)) (key : string) :
  pos_numeric pos_to_int postags = KeyError key
  <-> exists pre post : list string,
        concat postags = pre ++ key :: post
        /\ Forall (fun pos => is_Some (pos_to_int !! pos)) pre
        /\ pos_to_int !! key = None.
Proof.
  by rewrite pos_numeric_KeyError_concat, encode_sequence_KeyError.
Qed.

(** X12: when [pos_to_int] gives different tags different numbers, the
    tags can be read back from the numbers: two tag corpora that the cell
    turns into the same numbers are the same corpus. *)
Theorem pos_numeric_injective (pos_to_int : gmap string Z)
    (postags postags' : list (list string)) (nss : list (list Z)) :
  (forall (pos pos' : string) (n : Z),
      pos_to_int !! pos = Some n -> pos_to_int !! pos' = Some n -> pos = pos') ->
  pos_numeric pos_to_int postags = Found nss ->
  pos_numeric pos_to_int postags' = Found nss ->
  postags = postags'.
Proof.
  intros Hinj H1 H2.
  apply pos_numeric_Forall2 in H1. apply pos_numeric_Forall2 in H2.
  revert postags' H2.
  induction H1 as [|l ns postags nss Hl _ IH]; intros postags' H2.
  - by inversion H2.
  - inversion H2 as [|l' ? postags'' ? Hl' Hrest]; subst. f_equal; [|by apply IH].
    clear -Hinj Hl Hl'. revert l' Hl'.
    induction Hl as [|pos n l ns Hpos _ IH]; intros l' Hl'.
    + by inversion Hl'.
    + inversion Hl' as [|pos' ? l'' ? Hpos' Hrest]; subst.
      f_equal; [by eapply Hinj|by apply IH].
Qed.

(** X12, witness: the tags NN and VB numbered 1 and 2. *)
Lemma pos_numeric_injective_witness :
  [["NN"; "VB"]; ["VB"]] = [["NN"; "VB"]; ["VB"]] :> list (list string).
Proof.
  refine (pos_numeric_injective {[ "NN" := 1; "VB" := 2 ]}
            [["NN"; "VB"]; ["VB"]] [["NN"; "VB"]; ["VB"]] [[1; 2]; [2]]
            _ eq_refl eq_refl).
  intros pos pos' n Hpos Hpos'.
  apply lookup_insert_Some in Hpos as [[<- <-]|[_ Hpos]];
    [|apply lookup_singleton_Some in Hpos as [<- <-]];
    (apply lookup_insert_Some in Hpos' as [[<- Hn]|[_ Hpos']];
     [|apply lookup_singleton_Some in Hpos' as [<- Hn]]);
    first [reflexivity|discriminate Hn].
Defined.

(** X13: when no tag is numbered 0, no number the cell produces is 0, the
    value [measure_accuracy] ignores as padding. *)
Theorem pos_numeric_never_padding (pos_to_int : gmap string Z)
    (postags : list (list string)) (nss : list (list Z)) :
  (forall pos : string, pos_to_int !! pos <> Some 0) ->
  pos_numeric pos_to_int postags = Found nss ->
  Forall (Forall (fun n => n <> 0)) nss.
Proof.
  intros Hzero Hrun. apply pos_numeric_Forall2 in Hrun.
  induction Hrun as [|l ns postags nss Hl _ IH]; constructor; [|done].
  induction Hl as [|pos n l ns Hpos _ IHl]; constructor; [|done].
  intros ->. by apply (Hzero pos).
Qed.

(** X13, witness. *)
Lemma pos_numeric_never_padding_witness :
  Forall (Forall (fun n => n <> 0)) [[1; 2]; [2]].
Proof.
  refine (pos_numeric_never_padding {[ "NN" := 1; "VB" := 2 ]}
            [["NN"; "VB"]; ["VB"]] [[1; 2]; [2]] _ eq_refl).
  intros pos Hpos.
  apply lookup_insert_Some in Hpos as [[_ Hn]|[_ Hpos]];
    [|apply lookup_singleton_Some in Hpos as [_ Hn]];
    discriminate Hn.
Defined.

(** ** The [del] cells and the global [X] *)

Section DelFacts.
Context `{TorchAPI}.

(** A [del] statement that completes has unbound every target and touched
    nothing else. *)
Lemma del_globals_run (names : list string) (s s' : pystate) :
  del_globals names s = (Ret tt, s') ->
  (forall name, In name names -> globals s' !! name = None)
  /\ (forall name, ~ In name names -> globals s' !! name = globals s !! name)
  /\ heap s' = heap s /\ rng s' = rng s /\ trace s' = trace s.
Proof.
  revert s. induction names as [|n names IH]; intros s.
  - cbn. intros [= <-]. by repeat split.
  - cbn [del_globals]. unfold bind, del_global.
    destruct (globals s !! n) as [v|] eqn:Hn; [|done].
    intros Hrest. apply IH in Hrest as (Hgone & Hkept & Hheap & Hrng & Htrace).
    cbn [globals heap rng trace] in *. repeat split; [| |done..].
    + intros name [<-|Hin]; [|by apply Hgone].
      destruct (in_dec String.string_dec n names) as [Hin|Hout];
        [by apply Hgone|].
      rewrite (Hkept n Hout). apply lookup_delete_eq.
    + intros name Hout. rewrite Hkept by (intros Hin; apply Hout; by right).
      apply lookup_delete_ne. intros ->. apply Hout. by left.
Qed.
End DelFacts.

(** X14: after a [del] statement that names [X] has completed, every call
    of [mySRN.step] raises [NameError] for [X], whatever input it is given,
    and [forward] on a non-empty list raises it in its first round. *)
Theorem step_raises_after_del_X `{TorchAPI} (names : list string)
    (s s' : pystate) (self : mySRN.t) (x h x0 : value) (X' : list value)
    (fuel : nat) :
  del_globals names s = (Ret tt, s') ->
  In "X" names ->
  fst (mySRN.step self x h s') = Raise (NameError "X")
  /\ mySRN.forward (S fuel) self (x0 :: X') h s'
     = (Raise (NameError "X"), with_events s' [Called "step"]).
Proof.
  intros Hdel HX. apply del_globals_run in Hdel as (Hgone & _).
  specialize (Hgone "X" HX). split.
  - by rewrite step_run, Hgone.
  - unfold mySRN.forward. by rewrite forward_loop_nonempty, Hgone.
Qed.

(** X14, witness: the cell [del mySRN, rnn, X, h] run where the four names
    are bound. *)
Lemma step_raises_after_del_X_witness :
  fst (mySRN.step Toy.srn (VTensor [1]) (VTensor [0]) (Toy.state_without_X 0))
  = Raise (NameError "X")
  /\ mySRN.forward 1 Toy.srn [VTensor [1]] (VTensor [0]) (Toy.state_without_X 0)
     = (Raise (NameError "X"),
        with_events (Toy.state_without_X 0) [Called "step"]).
Proof.
  exact (step_raises_after_del_X ["mySRN"; "rnn"; "X"; "h"]
           (@mkState Toy.torch (<["mySRN" := VNone]> (<["rnn" := VNone]>
                      (<["X" := VTensor [5]]> {[ "h" := VTensor [0] ]})))
                    ∅ 0 [])
           (Toy.state_without_X 0) Toy.srn (VTensor [1]) (VTensor [0])
           (VTensor [1]) [] 0 eq_refl (or_intror (or_intror (or_introl eq_refl)))).
Defined.

(** X15: a [del] statement meets an unbound target only after it has
    deleted the targets before it: it raises [NameError] for that target and
    the earlier ones stay deleted. *)
Theorem del_globals_partial `{TorchAPI} (pre post : list string)
    (name : string) (s s1 : pystate) :
  del_globals pre s = (Ret tt, s1) ->
  globals s1 !! name = None ->
  del_globals (pre ++ name :: post) s = (Raise (NameError name), s1).
Proof.
  revert s. induction pre as [|n pre IH]; intros s.
  - cbn [del_globals app]. intros [= <-] Hname.
    unfold bind, del_global. by rewrite Hname.
  - cbn [del_globals app]. unfold bind at 1 2, del_global at 1 2.
    destruct (globals s !! n); [|done]. apply IH.
Qed.

(** X15, witness: [del x_1, x_2, x_3, X] where [x_3] is not bound. *)
Lemma del_globals_partial_witness :
  @cell_del_padding_example Toy.torch
    (@mkState Toy.torch (<["x_1" := VNone]> (<["x_2" := VNone]> {[ "X" := VNone ]})) ∅ 0 [])
  = (Raise (NameError "x_3"), @mkState Toy.torch {[ "X" := VNone ]} ∅ 0 []).
Proof.
  exact (del_globals_partial (H := Toy.torch) ["x_1"; "x_2"] ["X"] "x_3"
           (@mkState Toy.torch (<["x_1" := VNone]> (<["x_2" := VNone]> {[ "X" := VNone ]}))
                    ∅ 0 [])
           (@mkState Toy.torch {[ "X" := VNone ]} ∅ 0 []) eq_refl eq_refl).
Defined.

(** X16: a [del] cell cannot be run twice: after it has completed, running
    it again raises [NameError] for its first target and changes nothing. *)
Theorem del_globals_rerun_raises `{TorchAPI} (name : string)
    (names : list string) (s s' : pystate) :
  del_globals (name :: names) s = (Ret tt, s') ->
  del_globals (name :: names) s' = (Raise (NameError name), s').
Proof.
  intros Hdel. apply del_globals_run in Hdel as (Hgone & _).
  cbn [del_globals]. unfold bind, del_global.
  by rewrite (Hgone name (or_introl eq_refl)).
Qed.

(** X16, witness: the cell [del mySRN, rnn, X, h]. *)
Lemma del_globals_rerun_raises_witness :
  @cell_del_mySRN Toy.torch (Toy.state_without_X 0)
  = (Raise (NameError "mySRN"), Toy.state_without_X 0).
Proof.
  exact (del_globals_rerun_raises (H := Toy.torch) "mySRN" ["rnn"; "X"; "h"]
           (@mkState Toy.torch (<["mySRN" := VNone]> (<["rnn" := VNone]>
                      (<["X" := VTensor [5]]> {[ "h" := VTensor [0] ]})))
                    ∅ 0 [])
           (Toy.state_without_X 0) eq_refl).
Defined.

(** ** [mySRN.forward]: what it does not read *)

(** X17: [mySRN.forward] reads nothing of a non-empty input list but that
    it is not empty: any two non-empty lists give the same run, for every
    number of loop tests. *)
Theorem forward_blind_to_list_contents `{TorchAPI} (self : mySRN.t)
    (x1 x2 : value) (X1 X2 : list value) (h : value) (s : pystate)
    (fuel : nat) :
  mySRN.forward fuel self (x1 :: X1) h s = mySRN.forward fuel self (x2 :: X2) h s.
Proof.
  unfold mySRN.forward. by rewrite !forward_loop_nonempty.
Qed.
